(** * Compara-Imagen-Video: the scan / cache / compare pipeline

    A shallow embedding of the backend of the image and video
    deduplicator ([config.py], [models.py], [database.py], [scanner.py],
    [comparator.py], [main.py]) and the properties its design document
    states about it.

    Conventions of the embedding.
    - A Python [float] is an exact rational ([Q]).  [round(x, n)] is
      rounding to the nearest multiple of [10^-n], ties to the even
      neighbour, which is what CPython computes from the exact value of
      the double.
    - A [datetime] is an integer (microseconds).  SQLite stores the value
      as ISO text and [datetime.fromisoformat] reads the same instant
      back, so a stored timestamp is kept as the [datetime] itself.
    - A raised exception is a value of [exn]; a computation that may
      raise returns [result].
    - The [imagehash] package, the image and video decoders and the file
      system are not part of the repository: they are interfaces
      ([ImageHashLib], [Env]) that the embedded functions call. *)

From Stdlib Require Import ZArith QArith Qround String Ascii List Lia.
From Stdlib Require Import Permutation Sorted Lqa.
From stdpp Require Import base gmap sets list strings.

Local Open Scope string_scope.
Local Open Scope Z_scope.

(* ================================================================== *)
(** * Python values *)
(* ================================================================== *)

Definition float := Q.
Definition datetime := Z.

(** Nearest integer, ties to even. *)
Definition round_half_even (x : Q) : Z :=
  let f := Qfloor x in
  match Qcompare (x - inject_Z f) (1 # 2) with
  | Lt => f
  | Gt => f + 1
  | Eq => if Z.even f then f else f + 1
  end.

(** [round(x, ndigits)] on a float; the result is kept in lowest terms. *)
Definition py_round (x : float) (ndigits : nat) : float :=
  let scale := inject_Z (10 ^ Z.of_nat ndigits) in
  Qred (inject_Z (round_half_even (x * scale)) / scale).

(** [max(a, b)] on floats: Python returns the first argument unless the
    second is strictly greater. *)
Definition py_max (a b : float) : float :=
  match Qcompare a b with
  | Lt => b
  | _ => a
  end.

(** Exceptions: the class name and [str(e)]. *)
Record exn := Exn { exn_class : string; exn_str : string }.

Inductive result (A : Type) : Type :=
| Ok (a : A)
| Raise (e : exn).
Arguments Ok {A} a.
Arguments Raise {A} e.

(* ================================================================== *)
(** * config.py *)
(* ================================================================== *)

Definition IMAGE_EXTENSIONS : list string :=
  [".jpg"; ".jpeg"; ".png"; ".gif"; ".bmp"; ".webp"; ".tiff"; ".tif"].
Definition VIDEO_EXTENSIONS : list string :=
  [".mp4"; ".avi"; ".mov"; ".mkv"; ".webm"; ".flv"; ".wmv"].
Definition SUPPORTED_EXTENSIONS : list string :=
  (IMAGE_EXTENSIONS ++ VIDEO_EXTENSIONS)%list.

Definition HASH_SIZE : Z := 8.
Definition DEFAULT_SIMILARITY_THRESHOLD : Z := 5.
Definition MAX_FILE_SIZE_MB : Z := 500.

(* ================================================================== *)
(** * The imagehash package, as an interface *)
(* ================================================================== *)

(** [hex_to_hash s] is [None] when the call raises; [hash_sub h1 h2] is
    [h1 - h2], [None] when it raises (hashes of different sizes). *)
Class ImageHashLib := {
  ImageHash : Type;
  hex_to_hash : string -> option ImageHash;
  hash_sub : ImageHash -> ImageHash -> option Z
}.

(* ================================================================== *)
(** * models.py *)
(* ================================================================== *)

Record FileInfo := {
  fi_path : string;
  fi_filename : string;
  fi_size_mb : float;
  fi_width : option Z;
  fi_height : option Z;
  fi_created_at : datetime;
  fi_modified_at : datetime;
  fi_file_type : string;
  fi_hash : option string
}.

Record DuplicatePair := {
  file1 : FileInfo;
  file2 : FileInfo;
  similarity_score : Z;
  similarity_percentage : float
}.

Record DuplicatesResponse := {
  pairs : list DuplicatePair;
  total_pairs : Z;
  total_potential_savings_mb : float
}.

Record ScanRequest := {
  req_path : string;
  req_similarity_threshold : Z;
  req_file_type : string
}.

(* ================================================================== *)
(** * database.py *)
(* ================================================================== *)

(** One row of the table [files], as [SELECT *] returns it. *)
Record Row := {
  row_id : Z;
  row_path : string;
  row_filename : string;
  row_size_bytes : Z;
  row_width : option Z;
  row_height : option Z;
  row_created_at : datetime;
  row_modified_at : datetime;
  row_file_type : string;
  row_hash : option string;
  row_scan_date : datetime
}.

(** The dictionary [file_data] that [process_file] builds; [width],
    [height] and [hash] are present only after [update(info)]. *)
Record FileData := {
  fd_path : string;
  fd_filename : string;
  fd_size_bytes : Z;
  fd_created_at : datetime;
  fd_modified_at : datetime;
  fd_file_type : string;
  fd_width : option Z;
  fd_height : option Z;
  fd_hash : option string
}.

(** The table: its rows in rowid order and the AUTOINCREMENT counter. *)
Record Table := {
  tbl_rows : list Row;
  tbl_seq : Z
}.

(** [Database.connection] is [None] until [initialize] has run. *)
Record Database := {
  connection : option Table
}.

Definition no_connection : exn :=
  Exn "AttributeError" "'NoneType' object has no attribute 'execute'".

(** The test of [WHERE path = ?]. *)
Definition path_is (path : string) (r : Row) : bool :=
  String.eqb (row_path r) path.

Definition get_file_by_path (db : Database) (path : string)
  : result (option Row) :=
  match connection db with
  | None => Raise no_connection
  | Some t => Ok (List.find (path_is path) (tbl_rows t))
  end.

(** The row written by [ON CONFLICT(path) DO UPDATE]: size, dimensions,
    modification time, hash and scan date are overwritten. *)
Definition update_row (fd : FileData) (now : datetime) (r : Row) : Row :=
  {| row_id := row_id r;
     row_path := row_path r;
     row_filename := row_filename r;
     row_size_bytes := fd_size_bytes fd;
     row_width := fd_width fd;
     row_height := fd_height fd;
     row_created_at := row_created_at r;
     row_modified_at := fd_modified_at fd;
     row_file_type := row_file_type r;
     row_hash := fd_hash fd;
     row_scan_date := now |}.

Definition new_row (fd : FileData) (now : datetime) (id : Z) : Row :=
  {| row_id := id;
     row_path := fd_path fd;
     row_filename := fd_filename fd;
     row_size_bytes := fd_size_bytes fd;
     row_width := fd_width fd;
     row_height := fd_height fd;
     row_created_at := fd_created_at fd;
     row_modified_at := fd_modified_at fd;
     row_file_type := fd_file_type fd;
     row_hash := fd_hash fd;
     row_scan_date := now |}.

Fixpoint upsert_rows (fd : FileData) (now : datetime) (rows : list Row)
  : option (list Row) :=
  match rows with
  | [] => None
  | r :: rest =>
      if path_is (fd_path fd) r
      then Some (update_row fd now r :: rest)
      else match upsert_rows fd now rest with
           | Some rest' => Some (r :: rest')
           | None => None
           end
  end.

(** [insert_or_update_file]; [now] is [CURRENT_TIMESTAMP].  The row id it
    returns is ignored by its only caller and is left out. *)
Definition insert_or_update_file (db : Database) (fd : FileData)
    (now : datetime) : result Database :=
  match connection db with
  | None => Raise no_connection
  | Some t =>
      match upsert_rows fd now (tbl_rows t) with
      | Some rows' =>
          Ok {| connection := Some {| tbl_rows := rows'; tbl_seq := tbl_seq t |} |}
      | None =>
          let id := tbl_seq t + 1 in
          Ok {| connection :=
                  Some {| tbl_rows := (tbl_rows t ++ [new_row fd now id])%list;
                          tbl_seq := id |} |}
      end
  end.

(** [ORDER BY hash]: insertion into a list ordered by the hash text;
    rows with equal hashes keep their rowid order. *)
Definition hash_text (r : Row) : string :=
  match row_hash r with Some h => h | None => "" end.

Fixpoint insert_by_hash (r : Row) (l : list Row) : list Row :=
  match l with
  | [] => [r]
  | y :: l' =>
      if String.leb (hash_text r) (hash_text y)
      then r :: l
      else y :: insert_by_hash r l'
  end.

Definition order_by_hash (l : list Row) : list Row :=
  List.fold_right insert_by_hash [] l.

Definition hash_is_not_null (r : Row) : bool :=
  match row_hash r with Some _ => true | None => false end.

Definition get_files_with_hashes (db : Database) (file_type : string)
  : result (list Row) :=
  match connection db with
  | None => Raise no_connection
  | Some t =>
      if String.eqb file_type "both"
      then Ok (order_by_hash (List.filter hash_is_not_null (tbl_rows t)))
      else Ok (order_by_hash
                 (List.filter
                    (fun r => hash_is_not_null r
                              && String.eqb (row_file_type r) file_type)
                    (tbl_rows t)))
  end.

Definition clear_all (db : Database) : result Database :=
  match connection db with
  | None => Raise no_connection
  | Some t => Ok {| connection := Some {| tbl_rows := []; tbl_seq := tbl_seq t |} |}
  end.

(* ================================================================== *)
(** * comparator.py *)
(* ================================================================== *)

Section Comparator.
Context {lib : ImageHashLib}.

(** The [try] body raises when either decoding or the subtraction does;
    the handler returns 999. *)
Definition hamming_distance (hash1 hash2 : string) : Z :=
  match hex_to_hash hash1 with
  | None => 999
  | Some h1 =>
      match hex_to_hash hash2 with
      | None => 999
      | Some h2 =>
          match hash_sub h1 h2 with
          | Some d => d
          | None => 999
          end
      end
  end.

(** [hash_size] is 8 at the only call; a zero [hash_size], on which the
    division raises, does not occur. *)
Definition calculate_similarity_percentage (hamming_distance hash_size : Z)
  : float :=
  let max_distance := hash_size * hash_size in
  let similarity :=
    ((1 - (inject_Z hamming_distance / inject_Z max_distance)) * 100)%Q in
  py_round similarity 2.

Definition db_row_to_file_info (row : Row) : FileInfo :=
  {| fi_path := row_path row;
     fi_filename := row_filename row;
     fi_size_mb := py_round (inject_Z (row_size_bytes row)
                             / inject_Z (1024 * 1024))%Q 2;
     fi_width := row_width row;
     fi_height := row_height row;
     fi_created_at := row_created_at row;
     fi_modified_at := row_modified_at row;
     fi_file_type := row_file_type row;
     fi_hash := row_hash row |}.

(** [tuple(sorted([p1, p2]))]. *)
Definition pair_key (p1 p2 : string) : string * string :=
  if String.ltb p2 p1 then (p2, p1) else (p1, p2).

(** [not row.get('hash')]: the hash is NULL or the empty string. *)
Definition hash_missing (r : Row) : bool :=
  match row_hash r with
  | None => true
  | Some h => String.eqb h ""
  end.

(** The state of the comparison loops: [pairs] and [compared]. *)
Definition loop_state : Type := list DuplicatePair * gset (string * string).

(** The body of the inner loop, for [file1 = files[i]], [file2 = files[j]].
    [calculate_similarity_percentage] is called with its default
    [hash_size], 8. *)
Definition compare_step (similarity_threshold : Z) (file1 file2 : Row)
    (st : loop_state) : loop_state :=
  let '(pairs, compared) := st in
  let key := pair_key (row_path file1) (row_path file2) in
  if bool_decide (key ∈ compared) then st
  else
    let compared := compared ∪ {[ key ]} in
    if hash_missing file1 || hash_missing file2 then (pairs, compared)
    else
      let distance := hamming_distance (hash_text file1) (hash_text file2) in
      if distance <=? similarity_threshold then
        let similarity_pct := calculate_similarity_percentage distance 8 in
        let pair := {| file1 := db_row_to_file_info file1;
                       file2 := db_row_to_file_info file2;
                       similarity_score := distance;
                       similarity_percentage := similarity_pct |} in
        ((pairs ++ [pair])%list, compared)
      else (pairs, compared).

(** [for j in range(i + 1, len(files))], with [rest = files[i+1:]]. *)
Definition inner_loop (similarity_threshold : Z) (file1 : Row)
    (rest : list Row) (st : loop_state) : loop_state :=
  List.fold_left (fun st file2 => compare_step similarity_threshold file1 file2 st)
                 rest st.

(** [for i in range(len(files))]. *)
Fixpoint outer_loop (similarity_threshold : Z) (files : list Row)
    (st : loop_state) : loop_state :=
  match files with
  | [] => st
  | file1 :: rest =>
      outer_loop similarity_threshold rest
                 (inner_loop similarity_threshold file1 rest st)
  end.

(** [pairs.sort(key=lambda p: p.similarity_score)]: a stable sort. *)
Fixpoint insert_by_score (p : DuplicatePair) (l : list DuplicatePair)
  : list DuplicatePair :=
  match l with
  | [] => [p]
  | q :: l' =>
      if similarity_score p <=? similarity_score q
      then p :: l
      else q :: insert_by_score p l'
  end.

Definition sort_by_score (l : list DuplicatePair) : list DuplicatePair :=
  List.fold_right insert_by_score [] l.

(** The pairs in the order the loops append them. *)
Definition compare_files (similarity_threshold : Z) (files : list Row)
  : list DuplicatePair :=
  fst (outer_loop similarity_threshold files ([], ∅)).

(** [find_duplicates] from the fetched rows on. *)
Definition find_duplicates_in (similarity_threshold : Z) (files : list Row)
  : list DuplicatePair :=
  sort_by_score (compare_files similarity_threshold files).

Definition find_duplicates (db : Database) (similarity_threshold : Z)
    (file_type : string) : result (list DuplicatePair) :=
  match get_files_with_hashes db file_type with
  | Raise e => Raise e
  | Ok files => Ok (find_duplicates_in similarity_threshold files)
  end.

Definition calculate_potential_savings (pairs : list DuplicatePair) : float :=
  let total_mb :=
    List.fold_left
      (fun total_mb pair =>
         let larger_size :=
           py_max (fi_size_mb (file1 pair)) (fi_size_mb (file2 pair)) in
         (total_mb + larger_size)%Q)
      pairs 0%Q in
  py_round total_mb 2.

End Comparator.

(* ================================================================== *)
(** * A model of imagehash for plain hexadecimal strings *)
(* ================================================================== *)

(** [str(ImageHash)] writes a hash as hexadecimal digits only.  On such a
    string [hex_to_hash] takes [hash_size = int(sqrt(4 * len))], writes
    the number in binary, padded with zeros to [hash_size * hash_size]
    digits, and cuts it into rows of [hash_size] bits; rows of unequal
    length are refused.  A string with another character is treated as
    raising.  The hash is kept as its flattened bits. *)

Definition hex_digit (c : ascii) : option Z :=
  let n := Z.of_nat (nat_of_ascii c) in
  if (48 <=? n) && (n <=? 57) then Some (n - 48)
  else if (97 <=? n) && (n <=? 102) then Some (n - 87)
  else if (65 <=? n) && (n <=? 70) then Some (n - 55)
  else None.

Fixpoint int_base16 (s : string) (acc : Z) : option Z :=
  match s with
  | EmptyString => Some acc
  | String c rest =>
      match hex_digit c with
      | Some d => int_base16 rest (16 * acc + d)
      | None => None
      end
  end.

Fixpoint pos_bits (p : positive) : list bool :=
  match p with
  | xH => [true]
  | xO q => false :: pos_bits q
  | xI q => true :: pos_bits q
  end.

(** [format(n, 'b')] for [n >= 0], most significant bit first. *)
Definition binary_digits (n : Z) : list bool :=
  match n with
  | Zpos p => List.rev (pos_bits p)
  | _ => [false]
  end.

Definition zero_pad (width : nat) (l : list bool) : list bool :=
  (List.repeat false (width - List.length l) ++ l)%list.

Definition model_hex_to_hash (hexstr : string) : option (list bool) :=
  match hexstr with
  | EmptyString => None
  | _ =>
      match int_base16 hexstr 0 with
      | None => None
      | Some n =>
          let hash_size := Z.sqrt (Z.of_nat (String.length hexstr) * 4) in
          let binary_array :=
            zero_pad (Z.to_nat (hash_size * hash_size)) (binary_digits n) in
          if Z.of_nat (List.length binary_array) mod hash_size =? 0
          then Some binary_array
          else None
      end
  end.

Fixpoint count_nonzero_ne (a b : list bool) : Z :=
  match a, b with
  | x :: a', y :: b' => (if Bool.eqb x y then 0 else 1) + count_nonzero_ne a' b'
  | _, _ => 0
  end.

Definition model_hash_sub (h1 h2 : list bool) : option Z :=
  if Nat.eqb (List.length h1) (List.length h2)
  then Some (count_nonzero_ne h1 h2)
  else None.

Definition imagehash : ImageHashLib :=
  {| ImageHash := list bool;
     hex_to_hash := model_hex_to_hash;
     hash_sub := model_hash_sub |}.

(* ================================================================== *)
(** * pathlib, the file system and the extractors *)
(* ================================================================== *)

(** Index of the last occurrence of [c], as [str.rfind]. *)
Fixpoint rfind (c : ascii) (s : string) : option nat :=
  match s with
  | EmptyString => None
  | String d rest =>
      match rfind c rest with
      | Some i => Some (S i)
      | None => if Ascii.eqb d c then Some 0%nat else None
      end
  end.

(** [Path.name]: the final component of a path written with [/]. *)
Definition path_name (p : string) : string :=
  match rfind "/" p with
  | Some i => String.substring (S i) (String.length p - S i) p
  | None => p
  end.

(** [Path.suffix]: [name[i:]] when [0 < i < len(name) - 1] for
    [i = name.rfind('.')], otherwise the empty string. *)
Definition path_suffix (p : string) : string :=
  let name := path_name p in
  match rfind "." name with
  | Some i =>
      if (Nat.ltb 0 i) && (Nat.ltb i (String.length name - 1))
      then String.substring i (String.length name - i) name
      else ""
  | None => ""
  end.

Definition ascii_lower (c : ascii) : ascii :=
  let n := nat_of_ascii c in
  if (Nat.leb 65 n) && (Nat.leb n 90) then ascii_of_nat (n + 32) else c.

Fixpoint str_lower (s : string) : string :=
  match s with
  | EmptyString => EmptyString
  | String c rest => String (ascii_lower c) (str_lower rest)
  end.

Definition str_in (s : string) (l : list string) : bool :=
  List.existsb (String.eqb s) l.

Record Stat := {
  st_size : Z;
  st_ctime : datetime;
  st_mtime : datetime
}.

(** What [extract_image_info] and [extract_video_info] return. *)
Record Info := {
  info_width : Z;
  info_height : Z;
  info_hash : string
}.

(** The world outside the program.  [stat] raises where the file cannot
    be read; an extractor is [None] where decoding fails (the source
    catches the exception and returns [None]).  [rglob] lists the
    entries the walk yields; a walk that raises midway yields a shorter
    list, since [find_files] returns what it found so far. *)
Record Env := {
  path_exists : string -> bool;
  is_dir : string -> bool;
  is_file : string -> bool;
  rglob : string -> list string;
  stat : string -> result Stat;
  resolve : string -> string;
  extract_image_info : string -> option Info;
  extract_video_info : string -> option Info
}.

(* ================================================================== *)
(** * scanner.py *)
(* ================================================================== *)

Record ScanStatus := {
  is_scanning : bool;
  scanned_path : option string;
  scan_file_type : string;
  total_files : Z;
  processed_files : Z;
  current_file : option string;
  errors : list string;
  start_time : option datetime;
  end_time : option datetime
}.

(** [ScanStatus.reset], also the state [__init__] builds. *)
Definition reset : ScanStatus :=
  {| is_scanning := false;
     scanned_path := None;
     scan_file_type := "both";
     total_files := 0;
     processed_files := 0;
     current_file := None;
     errors := [];
     start_time := None;
     end_time := None |}.

Definition set_is_scanning (b : bool) (s : ScanStatus) : ScanStatus :=
  {| is_scanning := b; scanned_path := scanned_path s;
     scan_file_type := scan_file_type s; total_files := total_files s;
     processed_files := processed_files s; current_file := current_file s;
     errors := errors s; start_time := start_time s; end_time := end_time s |}.

Definition set_scanned_path (p : option string) (s : ScanStatus) : ScanStatus :=
  {| is_scanning := is_scanning s; scanned_path := p;
     scan_file_type := scan_file_type s; total_files := total_files s;
     processed_files := processed_files s; current_file := current_file s;
     errors := errors s; start_time := start_time s; end_time := end_time s |}.

Definition set_file_type (t : string) (s : ScanStatus) : ScanStatus :=
  {| is_scanning := is_scanning s; scanned_path := scanned_path s;
     scan_file_type := t; total_files := total_files s;
     processed_files := processed_files s; current_file := current_file s;
     errors := errors s; start_time := start_time s; end_time := end_time s |}.

Definition set_total_files (n : Z) (s : ScanStatus) : ScanStatus :=
  {| is_scanning := is_scanning s; scanned_path := scanned_path s;
     scan_file_type := scan_file_type s; total_files := n;
     processed_files := processed_files s; current_file := current_file s;
     errors := errors s; start_time := start_time s; end_time := end_time s |}.

Definition set_processed_files (n : Z) (s : ScanStatus) : ScanStatus :=
  {| is_scanning := is_scanning s; scanned_path := scanned_path s;
     scan_file_type := scan_file_type s; total_files := total_files s;
     processed_files := n; current_file := current_file s;
     errors := errors s; start_time := start_time s; end_time := end_time s |}.

Definition set_current_file (f : option string) (s : ScanStatus) : ScanStatus :=
  {| is_scanning := is_scanning s; scanned_path := scanned_path s;
     scan_file_type := scan_file_type s; total_files := total_files s;
     processed_files := processed_files s; current_file := f;
     errors := errors s; start_time := start_time s; end_time := end_time s |}.

Definition append_error (msg : string) (s : ScanStatus) : ScanStatus :=
  {| is_scanning := is_scanning s; scanned_path := scanned_path s;
     scan_file_type := scan_file_type s; total_files := total_files s;
     processed_files := processed_files s; current_file := current_file s;
     errors := (errors s ++ [msg])%list;
     start_time := start_time s; end_time := end_time s |}.

Definition set_start_time (t : option datetime) (s : ScanStatus) : ScanStatus :=
  {| is_scanning := is_scanning s; scanned_path := scanned_path s;
     scan_file_type := scan_file_type s; total_files := total_files s;
     processed_files := processed_files s; current_file := current_file s;
     errors := errors s; start_time := t; end_time := end_time s |}.

Definition set_end_time (t : option datetime) (s : ScanStatus) : ScanStatus :=
  {| is_scanning := is_scanning s; scanned_path := scanned_path s;
     scan_file_type := scan_file_type s; total_files := total_files s;
     processed_files := processed_files s; current_file := current_file s;
     errors := errors s; start_time := start_time s; end_time := t |}.

(** What the program does to the outside, in order: a call of an
    extractor, an upsert sent to the cache, a [DELETE FROM files]. *)
Inductive Event :=
| Extracted (file_path : string)
| Upserted (fd : FileData)
| Cleared.

(** The process state: the global [db], the global [scan_status], a
    logical clock (each reading of the time advances it) and the events
    so far. *)
Record World := {
  db : Database;
  scan_status : ScanStatus;
  clock : datetime;
  events : list Event
}.

(** Computations over the world that may raise; the world a raising
    computation leaves behind is kept. *)
Definition M (A : Type) : Type := World -> result A * World.

Definition ret {A} (a : A) : M A := fun w => (Ok a, w).

Definition raise {A} (e : exn) : M A := fun w => (Raise e, w).

Definition bind {A B} (m : M A) (k : A -> M B) : M B :=
  fun w =>
    match m w with
    | (Ok a, w') => k a w'
    | (Raise e, w') => (Raise e, w')
    end.

(** [try: body  except Exception as e: handler]. *)
Definition try_catch {A} (body : M A) (handler : exn -> M A) : M A :=
  fun w =>
    match body w with
    | (Ok a, w') => (Ok a, w')
    | (Raise e, w') => handler e w'
    end.

Notation "x <- m ;; k" := (bind m (fun x => k))
  (at level 90, m at level 89, right associativity).
Notation "m ;;; k" := (bind m (fun _ => k))
  (at level 90, right associativity).

Definition get_status : M ScanStatus := fun w => (Ok (scan_status w), w).

Definition modify_status (f : ScanStatus -> ScanStatus) : M unit :=
  fun w => (Ok tt, {| db := db w; scan_status := f (scan_status w);
                      clock := clock w; events := events w |}).

Definition emit (ev : Event) : M unit :=
  fun w => (Ok tt, {| db := db w; scan_status := scan_status w;
                      clock := clock w; events := (events w ++ [ev])%list |}).

(** [datetime.now()] and [CURRENT_TIMESTAMP]. *)
Definition now : M datetime :=
  fun w => (Ok (clock w), {| db := db w; scan_status := scan_status w;
                             clock := clock w + 1; events := events w |}).

Definition set_db (d : Database) : M unit :=
  fun w => (Ok tt, {| db := d; scan_status := scan_status w;
                      clock := clock w; events := events w |}).

Definition lift {A} (f : Database -> result A) : M A :=
  fun w => (f (db w), w).

Definition db_get_file_by_path (path : string) : M (option Row) :=
  lift (fun d => get_file_by_path d path).

Definition db_insert_or_update_file (fd : FileData) : M unit :=
  emit (Upserted fd) ;;;
  t <- now ;;
  d <- lift (fun d => insert_or_update_file d fd t) ;;
  set_db d.

Definition db_clear_all : M unit :=
  emit Cleared ;;;
  d <- lift clear_all ;;
  set_db d.

Definition os_stat (env : Env) (file_path : string) : M Stat :=
  fun w => (stat env file_path, w).

Definition size_within_limit (s : Stat) : bool :=
  Qle_bool (inject_Z (st_size s) / inject_Z (1024 * 1024))
           (inject_Z MAX_FILE_SIZE_MB).

(** The loop of [find_files]; an exception inside it ends the walk and
    the files found so far are returned. *)
Fixpoint find_files_loop (env : Env) (allowed_extensions : list string)
    (items : list string) (files : list string) : list string :=
  match items with
  | [] => files
  | item :: rest =>
      if is_file env item
         && str_in (str_lower (path_suffix item)) allowed_extensions
      then
        match stat env item with
        | Raise _ => files
        | Ok s =>
            if size_within_limit s
            then find_files_loop env allowed_extensions rest (files ++ [item])%list
            else find_files_loop env allowed_extensions rest files
        end
      else find_files_loop env allowed_extensions rest files
  end.

Definition find_files (env : Env) (directory : string) (file_type : string)
  : list string :=
  let allowed_extensions :=
    if String.eqb file_type "image" then IMAGE_EXTENSIONS
    else if String.eqb file_type "video" then VIDEO_EXTENSIONS
    else SUPPORTED_EXTENSIONS in
  find_files_loop env allowed_extensions (rglob env directory) [].

Definition get_file_type (file_path : string) : option string :=
  let ext := str_lower (path_suffix file_path) in
  if str_in ext IMAGE_EXTENSIONS then Some "image"
  else if str_in ext VIDEO_EXTENSIONS then Some "video"
  else None.

(** [file_data.update(info)]. *)
Definition update_info (fd : FileData) (info : Info) : FileData :=
  {| fd_path := fd_path fd;
     fd_filename := fd_filename fd;
     fd_size_bytes := fd_size_bytes fd;
     fd_created_at := fd_created_at fd;
     fd_modified_at := fd_modified_at fd;
     fd_file_type := fd_file_type fd;
     fd_width := Some (info_width info);
     fd_height := Some (info_height info);
     fd_hash := Some (info_hash info) |}.

(** [if info: file_data.update(info)]. *)
Definition merge_info (fd : FileData) (info : option Info) : FileData :=
  match info with
  | Some i => update_info fd i
  | None => fd
  end.

Definition basic_file_data (env : Env) (file_path : string) (s : Stat)
    (file_type : string) : FileData :=
  {| fd_path := resolve env file_path;
     fd_filename := path_name file_path;
     fd_size_bytes := st_size s;
     fd_created_at := st_ctime s;
     fd_modified_at := st_mtime s;
     fd_file_type := file_type;
     fd_width := None;
     fd_height := None;
     fd_hash := None |}.

(** The type-specific extraction of [process_file]. *)
Definition extract_info (env : Env) (file_path file_type : string)
  : M (option Info) :=
  if String.eqb file_type "image" then
    emit (Extracted file_path) ;;; ret (extract_image_info env file_path)
  else if String.eqb file_type "video" then
    emit (Extracted file_path) ;;; ret (extract_video_info env file_path)
  else ret None.

(** What [process_file] returns: the cached row, or the dictionary it
    has just stored. *)
Inductive Processed :=
| Cached (row : Row)
| Stored (fd : FileData).

(** [cached and fromisoformat(cached['modified_at']) == file_data['modified_at']]. *)
Definition cache_hit (cached : option Row) (fd : FileData) : option Row :=
  match cached with
  | Some c => if row_modified_at c =? fd_modified_at fd then Some c else None
  | None => None
  end.

Definition process_file (env : Env) (file_path : string)
  : M (option Processed) :=
  try_catch
    (s <- os_stat env file_path ;;
     match get_file_type file_path with
     | None => ret None
     | Some file_type =>
         let file_data := basic_file_data env file_path s file_type in
         cached <- db_get_file_by_path (fd_path file_data) ;;
         match cache_hit cached file_data with
         | Some c => ret (Some (Cached c))
         | None =>
             info <- extract_info env file_path file_type ;;
             let file_data := merge_info file_data info in
             db_insert_or_update_file file_data ;;;
             ret (Some (Stored file_data))
         end
     end)
    (fun e =>
       modify_status
         (append_error (path_name file_path ++ ": " ++ exn_str e)%string) ;;;
       ret None).

(** The loop [for file_path in files] of [scan_directory]. *)
Fixpoint process_files (env : Env) (files : list string) : M unit :=
  match files with
  | [] => ret tt
  | file_path :: rest =>
      modify_status (set_current_file (Some (path_name file_path))) ;;;
      process_file env file_path ;;;
      modify_status (fun s => set_processed_files (processed_files s + 1) s) ;;;
      process_files env rest
  end.

Definition scan_in_progress : exn :=
  Exn "RuntimeError" "A scan is already in progress".

(** The [try] block of [scan_directory]; its result is
    [scan_status.to_dict()]. *)
Definition scan_try (env : Env) (directory file_type : string)
    (clear_cache : bool) : M ScanStatus :=
  (if clear_cache then db_clear_all else ret tt) ;;;
  let files := find_files env directory file_type in
  modify_status (set_total_files (Z.of_nat (List.length files))) ;;;
  process_files env files ;;;
  t <- now ;;
  modify_status (set_end_time (Some t)) ;;;
  modify_status (set_is_scanning false) ;;;
  get_status.

(** The [except Exception as e] block of [scan_directory]. *)
Definition scan_except (e : exn) : M ScanStatus :=
  modify_status (append_error (exn_str e)) ;;;
  t <- now ;;
  modify_status (set_end_time (Some t)) ;;;
  modify_status (set_is_scanning false) ;;;
  raise e.

Definition scan_directory (env : Env) (directory file_type : string)
    (clear_cache : bool) : M ScanStatus :=
  st <- get_status ;;
  if is_scanning st then raise scan_in_progress
  else
    modify_status (fun _ => reset) ;;;
    modify_status (set_is_scanning true) ;;;
    modify_status (set_scanned_path (Some directory)) ;;;
    modify_status (set_file_type file_type) ;;;
    t <- now ;;
    modify_status (set_start_time (Some t)) ;;;
    try_catch (scan_try env directory file_type clear_cache) scan_except.

(* ================================================================== *)
(** * main.py *)
(* ================================================================== *)

(** The outcome of a request handler: a response, an [HTTPException],
    or another exception leaving the handler. *)
Inductive http_result (A : Type) : Type :=
| Response (a : A)
| HTTPError (status_code : Z) (detail : string)
| Unhandled (e : exn).
Arguments Response {A} a.
Arguments HTTPError {A} status_code detail.
Arguments Unhandled {A} e.

(** A call queued with [background_tasks.add_task(scan_directory, ...)]. *)
Record Task := {
  task_directory : string;
  task_file_type : string;
  task_clear_cache : bool
}.

(** [request.clear_cache]: [ScanRequest] declares [path],
    [similarity_threshold] and [file_type] only, so the attribute lookup
    raises. *)
Definition req_clear_cache (request : ScanRequest) : result bool :=
  Raise (Exn "AttributeError"
             "'ScanRequest' object has no attribute 'clear_cache'").

(** [start_scan]: the outcome, the tasks it queued, and the world it
    leaves.  The response model has no [file_type]; that field of the
    record stays at its default. *)
Definition start_scan (env : Env) (request : ScanRequest) (w : World)
  : http_result ScanStatus * list Task * World :=
  if is_scanning (scan_status w) then
    (HTTPError 409 "A scan is already in progress", [], w)
  else if negb (path_exists env (req_path request)) then
    (HTTPError 404 ("Path not found: " ++ req_path request)%string, [], w)
  else if negb (is_dir env (req_path request)) then
    (HTTPError 400 ("Path is not a directory: " ++ req_path request)%string, [], w)
  else
    match req_clear_cache request with
    | Raise e => (Unhandled e, [], w)
    | Ok clear_cache =>
        (Response {| is_scanning := true;
                     scanned_path := Some (req_path request);
                     scan_file_type := "both";
                     total_files := 0;
                     processed_files := 0;
                     current_file := None;
                     errors := [];
                     start_time := None;
                     end_time := None |},
         [ {| task_directory := req_path request;
              task_file_type := req_file_type request;
              task_clear_cache := clear_cache |} ],
         w)
    end.

(** [get_duplicates]; [file_type] is [None] when the query gives none. *)
Definition get_duplicates {lib : ImageHashLib} (threshold : Z)
    (file_type : option string) (w : World)
  : http_result DuplicatesResponse :=
  if (threshold <? 0) || (15 <? threshold) then
    HTTPError 400 "Threshold must be between 0 and 15"
  else
    let file_type :=
      match file_type with
      | None => scan_file_type (scan_status w)
      | Some t => t
      end in
    if negb (str_in file_type ["image"; "video"; "both"]) then
      HTTPError 400 "file_type must be 'image', 'video', or 'both'"
    else
      match find_duplicates (db w) threshold file_type with
      | Ok pairs =>
          Response {| pairs := pairs;
                      total_pairs := Z.of_nat (List.length pairs);
                      total_potential_savings_mb :=
                        calculate_potential_savings pairs |}
      | Raise e =>
          HTTPError 500 ("Error finding duplicates: " ++ exn_str e)%string
      end.

(* ================================================================== *)
(** * Vocabulary of the statements *)
(* ================================================================== *)

Section Vocabulary.
Context {lib : ImageHashLib}.

(** The pair [find_duplicates] builds from two rows. *)
Definition pair_of (f1 f2 : Row) : DuplicatePair :=
  let distance := hamming_distance (hash_text f1) (hash_text f2) in
  {| file1 := db_row_to_file_info f1;
     file2 := db_row_to_file_info f2;
     similarity_score := distance;
     similarity_percentage := calculate_similarity_percentage distance 8 |}.

(** The rows [(files[i], files[j])], [i < j], in the order the loops
    visit them. *)
Fixpoint all_pairs (files : list Row) : list (Row * Row) :=
  match files with
  | [] => []
  | file1 :: rest => (List.map (fun file2 => (file1, file2)) rest
                      ++ all_pairs rest)%list
  end.

Definition rows_key (c : Row * Row) : string * string :=
  pair_key (row_path (fst c)) (row_path (snd c)).

(** The visited pairs that get past the [compared] test. *)
Fixpoint first_seen (compared : gset (string * string))
    (cands : list (Row * Row)) : list (Row * Row) :=
  match cands with
  | [] => []
  | c :: cs =>
      if bool_decide (rows_key c ∈ compared) then first_seen compared cs
      else c :: first_seen (compared ∪ {[ rows_key c ]}) cs
  end.

Definition considered (files : list Row) : list (Row * Row) :=
  first_seen ∅ (all_pairs files).

(** What a considered pair of rows contributes to [pairs]. *)
Definition qualify (similarity_threshold : Z) (c : Row * Row)
  : option DuplicatePair :=
  if hash_missing (fst c) || hash_missing (snd c) then None
  else if hamming_distance (hash_text (fst c)) (hash_text (snd c))
          <=? similarity_threshold
       then Some (pair_of (fst c) (snd c))
       else None.

(** One iteration of the inner loop, on a visited pair. *)
Definition step_on (thr : Z) (st : loop_state) (c : Row * Row) : loop_state :=
  compare_step thr (fst c) (snd c) st.

(** The unordered pair of paths of a reported pair. *)
Definition paths_key (p : DuplicatePair) : string * string :=
  pair_key (fi_path (file1 p)) (fi_path (file2 p)).

(** Two reported pairs are about the same two paths, in either order. *)
Definition same_paths (p q : DuplicatePair) : Prop :=
  (fi_path (file1 p) = fi_path (file1 q)
   /\ fi_path (file2 p) = fi_path (file2 q))
  \/ (fi_path (file1 p) = fi_path (file2 q)
      /\ fi_path (file2 p) = fi_path (file1 q)).


Definition score_le (p q : DuplicatePair) : Prop :=
  similarity_score p <= similarity_score q.

Definition with_score (k : Z) (l : list DuplicatePair) : list DuplicatePair :=
  List.filter (fun p => similarity_score p =? k) l.

(** The larger size of a pair, and the exact sum over the pairs. *)
Definition larger_size (p : DuplicatePair) : float :=
  py_max (fi_size_mb (file1 p)) (fi_size_mb (file2 p)).

Definition sum_larger (pairs : list DuplicatePair) : float :=
  List.fold_right (fun p acc => (larger_size p + acc)%Q) 0%Q pairs.

End Vocabulary.

(** What the extractor chosen for a file type returns. *)
Definition extraction (env : Env) (file_path file_type : string)
  : option Info :=
  if String.eqb file_type "image" then extract_image_info env file_path
  else if String.eqb file_type "video" then extract_video_info env file_path
  else None.

(** The world after a file was extracted and stored: the extractor was
    called, one upsert was sent, the clock was read once. *)
Definition after_store (w : World) (file_path : string) (stored : FileData)
    (d : Database) : World :=
  {| db := d;
     scan_status := scan_status w;
     clock := clock w + 1;
     events := (events w ++ [Extracted file_path; Upserted stored])%list |}.

(** The world after a per-file error was recorded. *)
Definition after_error (w : World) (msg : string) : World :=
  {| db := db w;
     scan_status := append_error msg (scan_status w);
     clock := clock w;
     events := events w |}.

(** A run has ended idle: the scanning flag is cleared, the end time is
    set, a returned status is the final one and the message of a raised
    exception is the last entry of the error list. *)
Definition ends_idle (rw : result ScanStatus * World) : Prop :=
  is_scanning (scan_status (snd rw)) = false
  /\ (exists t, end_time (scan_status (snd rw)) = Some t)
  /\ match fst rw with
     | Ok st => st = scan_status (snd rw)
     | Raise e =>
         exists earlier,
           errors (scan_status (snd rw)) = (earlier ++ [exn_str e])%list
     end.

(** The table satisfies [UNIQUE(path)]. *)
Definition unique_paths (rows : list Row) : Prop :=
  NoDup (List.map row_path rows).
(* ================================================================== *)
(** * Sample data *)
(* ================================================================== *)

Definition sample_row (id : Z) (path : string) (hash : option string)
    (size_bytes : Z) (modified_at : datetime) : Row :=
  {| row_id := id;
     row_path := path;
     row_filename := path_name path;
     row_size_bytes := size_bytes;
     row_width := Some 640;
     row_height := Some 480;
     row_created_at := 1000;
     row_modified_at := modified_at;
     row_file_type := "image";
     row_hash := hash;
     row_scan_date := 2000 |}.

Definition row_a : Row :=
  sample_row 1 "/photos/a.jpg" (Some "0000000000000000") 1048576 1500.
Definition row_b : Row :=
  sample_row 2 "/photos/b.jpg" (Some "0000000000000001") 3145728 1500.
Definition row_c : Row :=
  sample_row 3 "/photos/c.jpg" (Some "0000000000000003") 2097152 1500.
Definition row_corrupt : Row :=
  sample_row 4 "/photos/d.jpg" (Some "zz") 512 1500.
Definition row_empty : Row :=
  sample_row 5 "/photos/e.jpg" (Some "") 512 1500.

Definition sample_rows : list Row :=
  [row_a; row_b; row_c; row_corrupt; row_empty].

Definition sample_db : Database :=
  {| connection := Some {| tbl_rows := sample_rows; tbl_seq := 5 |} |}.

Definition sample_stat (file_path : string) : result Stat :=
  if String.eqb file_path "/photos/a.jpg"
  then Ok {| st_size := 1048576; st_ctime := 1000; st_mtime := 1500 |}
  else if String.eqb file_path "/photos/b.jpg"
  then Ok {| st_size := 3145728; st_ctime := 1000; st_mtime := 1700 |}
  else if String.eqb file_path "/photos/new.PNG"
  then Ok {| st_size := 4096; st_ctime := 1800; st_mtime := 1800 |}
  else if String.eqb file_path "/photos/clip.mp4"
  then Ok {| st_size := 8192; st_ctime := 1900; st_mtime := 1900 |}
  else Raise (Exn "FileNotFoundError"
                  ("[Errno 2] No such file or directory: '" ++ file_path ++ "'")%string).

(** A directory with a file already cached and unchanged ([a.jpg]), a
    cached file modified since ([b.jpg]), a new image, a video that does
    not decode, and a text file. *)
Definition sample_env : Env :=
  {| path_exists := fun p => String.eqb p "/photos";
     is_dir := fun p => String.eqb p "/photos";
     is_file := fun p => negb (String.eqb p "/photos");
     rglob := fun d =>
       if String.eqb d "/photos"
       then ["/photos/a.jpg"; "/photos/b.jpg"; "/photos/new.PNG";
             "/photos/clip.mp4"; "/photos/notes.txt"]
       else [];
     stat := sample_stat;
     resolve := fun p => p;
     extract_image_info := fun p =>
       Some {| info_width := 800; info_height := 600;
               info_hash := "00000000000000ff" |};
     extract_video_info := fun _ => None |}.

Definition sample_world : World :=
  {| db := sample_db; scan_status := reset; clock := 5000; events := [] |}.

(** The same world while a scan is running. *)
Definition running_world : World :=
  {| db := sample_db;
     scan_status :=
       {| is_scanning := true;
          scanned_path := Some "/photos";
          scan_file_type := "image";
          total_files := 4;
          processed_files := 1;
          current_file := Some "b.jpg";
          errors := [];
          start_time := Some 4000;
          end_time := None |};
     clock := 5000;
     events := [] |}.

(** A world whose database was never initialised. *)
Definition closed_world : World :=
  {| db := {| connection := None |}; scan_status := reset;
     clock := 5000; events := [] |}.

Definition sample_request : ScanRequest :=
  {| req_path := "/photos"; req_similarity_threshold := 5;
     req_file_type := "both" |}.

(* ================================================================== *)
(** * database.py: the other operations *)
(* ================================================================== *)

Definition get_all_files (db : Database) : result (list Row) :=
  match connection db with
  | None => Raise no_connection
  | Some t => Ok (tbl_rows t)
  end.

(** [delete_file_record]: the new database and [cursor.rowcount > 0]. *)
Definition delete_file_record (db : Database) (path : string)
  : result (Database * bool) :=
  match connection db with
  | None => Raise no_connection
  | Some t =>
      let rowcount :=
        Z.of_nat (List.length (List.filter (path_is path) (tbl_rows t))) in
      Ok ({| connection :=
               Some {| tbl_rows :=
                         List.filter (fun r => negb (path_is path r)) (tbl_rows t);
                       tbl_seq := tbl_seq t |} |},
          0 <? rowcount)
  end.

(** SQL [SUM] and [MIN]: NULL over no rows. *)
Definition sql_sum (l : list Z) : option Z :=
  match l with
  | [] => None
  | _ => Some (List.fold_left Z.add l 0)
  end.

Definition sql_min (l : list Z) : option Z :=
  match l with
  | [] => None
  | x :: rest => Some (List.fold_left Z.min rest x)
  end.

(** [x or 0] on an aggregate. *)
Definition or_zero (x : option Z) : Z :=
  match x with
  | Some v => v
  | None => 0
  end.

Record Stats := {
  total_files_cached : Z;
  total_images : Z;
  total_videos : Z;
  total_size_mb : float;
  cache_created_at : option datetime
}.

Definition type_flag (file_type : string) (r : Row) : Z :=
  if String.eqb (row_file_type r) file_type then 1 else 0.

Definition get_stats (db : Database) : result Stats :=
  match connection db with
  | None => Raise no_connection
  | Some t =>
      let rows := tbl_rows t in
      Ok {| total_files_cached := Z.of_nat (List.length rows);
            total_images := or_zero (sql_sum (List.map (type_flag "image") rows));
            total_videos := or_zero (sql_sum (List.map (type_flag "video") rows));
            total_size_mb :=
              (inject_Z (or_zero (sql_sum (List.map row_size_bytes rows)))
               / inject_Z (1024 * 1024))%Q;
            cache_created_at := sql_min (List.map row_scan_date rows) |}
  end.

(* ================================================================== *)
(** * config.py: [is_path_safe] *)
(* ================================================================== *)

(** The components of a path written with [/]. *)
Fixpoint path_parts_from (s : string) (cur : string) : list string :=
  match s with
  | EmptyString => if String.eqb cur "" then [] else [cur]
  | String c rest =>
      if Ascii.eqb c "/" then
        if String.eqb cur "" then path_parts_from rest ""
        else cur :: path_parts_from rest ""
      else path_parts_from rest (cur ++ String c EmptyString)%string
  end.

Definition path_parts (p : string) : list string := path_parts_from p "".

Fixpoint parts_prefix (base target : list string) : bool :=
  match base, target with
  | [], _ => true
  | b :: base', t :: target' => String.eqb b t && parts_prefix base' target'
  | _ :: _, [] => false
  end.

(** [target.is_relative_to(base)] on resolved, hence absolute, paths. *)
Definition is_relative_to (target base : string) : bool :=
  parts_prefix (path_parts base) (path_parts target).

(** [resolve] of the environment always answers, so the [except] branch
    of [is_path_safe] has no counterpart here. *)
Definition is_path_safe (env : Env) (base_path target_path : string) : bool :=
  is_relative_to (resolve env target_path) (resolve env base_path).

(* ================================================================== *)
(** * main.py: the other endpoints *)
(* ================================================================== *)

Record DeleteRequest := {
  del_file_path : string;
  del_scan_base_path : string
}.

Record DeleteResponse := {
  success : bool;
  message : string;
  deleted_path : option string
}.

Definition with_db (w : World) (d : Database) : World :=
  {| db := d; scan_status := scan_status w;
     clock := clock w; events := events w |}.

(** [delete_file]: the outcome, the files it unlinked and the world it
    leaves.  [unlink] is what the operating system answers to
    [file_path.unlink()].  The request holds paths the validator has
    resolved, so [str(Path(p))] is [p]. *)
Definition delete_file (env : Env) (unlink : string -> result unit)
    (request : DeleteRequest) (w : World)
  : http_result DeleteResponse * list string * World :=
  let file_path := del_file_path request in
  let base_path := del_scan_base_path request in
  if negb (is_path_safe env base_path file_path) then
    (HTTPError 403 "Cannot delete file outside of scanned directory", [], w)
  else if negb (path_exists env file_path) then
    (HTTPError 404 "File not found", [], w)
  else if negb (is_file env file_path) then
    (HTTPError 400 "Path is not a file", [], w)
  else
    match unlink file_path with
    | Raise e =>
        (HTTPError 500 ("Error deleting file: " ++ exn_str e)%string, [], w)
    | Ok _ =>
        match delete_file_record (db w) file_path with
        | Raise e =>
            (HTTPError 500 ("Error deleting file: " ++ exn_str e)%string,
             [file_path], w)
        | Ok (d, _) =>
            (Response {| success := true;
                         message := "File deleted successfully";
                         deleted_path := Some file_path |},
             [file_path], with_db w d)
        end
    end.

(** The endpoint [get_stats] of main.py. *)
Definition api_get_stats (w : World) : http_result Stats :=
  match get_stats (db w) with
  | Ok s => Response s
  | Raise e => HTTPError 500 ("Error getting stats: " ++ exn_str e)%string
  end.

(** The endpoint [clear_cache]; the response is its message. *)
Definition api_clear_cache (w : World) : http_result string * World :=
  match clear_all (db w) with
  | Ok d => (Response "Cache cleared successfully", with_db w d)
  | Raise e =>
      (HTTPError 500 ("Error clearing cache: " ++ exn_str e)%string, w)
  end.

Record FileResponse := {
  resp_path : string;
  resp_media_type : string;
  resp_filename : string
}.

(** The chain of tests on the lowered suffix in [get_file_preview]. *)
Definition media_type_of (suffix : string) : string :=
  if str_in suffix [".jpg"; ".jpeg"] then "image/jpeg"
  else if str_in suffix [".png"] then "image/png"
  else if str_in suffix [".gif"] then "image/gif"
  else if str_in suffix [".webp"] then "image/webp"
  else if str_in suffix [".bmp"] then "image/bmp"
  else if str_in suffix [".mp4"] then "video/mp4"
  else if str_in suffix [".webm"] then "video/webm"
  else if str_in suffix [".mov"] then "video/quicktime"
  else if str_in suffix [".avi"] then "video/x-msvideo"
  else "application/octet-stream".

Definition preview_not_found (path : string) : string :=
  ("File not found on disk. It may have been moved or deleted. Path: "
   ++ path)%string.

Definition preview_error {A} (e : exn) : http_result A :=
  HTTPError 500 ("Error serving file: " ++ exn_str e)%string.

(** [get_file_preview]: the outcome and the world it leaves. *)
Definition get_file_preview (env : Env) (file_path : string) (w : World)
  : http_result FileResponse * World :=
  let path := resolve env file_path in
  match get_file_by_path (db w) path with
  | Raise e => (preview_error e, w)
  | Ok found =>
      match (match found with
             | Some r => Ok (Some r)
             | None => get_file_by_path (db w) file_path
             end) with
      | Raise e => (preview_error e, w)
      | Ok file_record =>
          if negb (path_exists env path) then
            match file_record with
            | Some _ =>
                match delete_file_record (db w) path with
                | Raise e => (preview_error e, w)
                | Ok (d, _) =>
                    (HTTPError 404 (preview_not_found path), with_db w d)
                end
            | None => (HTTPError 404 (preview_not_found path), w)
            end
          else if negb (is_file env path) then
            (HTTPError 400 "Path is not a file", w)
          else
            (Response {| resp_path := path;
                         resp_media_type :=
                           media_type_of (str_lower (path_suffix path));
                         resp_filename := path_name path |},
             w)
      end
  end.

(* ================================================================== *)
(** * Vocabulary of the further statements *)
(* ================================================================== *)

(** Rows in ascending order of the hash text. *)
Definition hash_le (r1 r2 : Row) : Prop :=
  String.leb (hash_text r1) (hash_text r2) = true.

(** The files [find_files] accepts: regular, of an allowed extension,
    readable and within the size limit. *)
Definition accepted (env : Env) (allowed : list string) (item : string) : bool :=
  is_file env item
  && str_in (str_lower (path_suffix item)) allowed
  && match stat env item with
     | Ok s => size_within_limit s
     | Raise _ => false
     end.

(** The extensions searched for a scope. *)
Definition allowed_for (file_type : string) : list string :=
  if String.eqb file_type "image" then IMAGE_EXTENSIONS
  else if String.eqb file_type "video" then VIDEO_EXTENSIONS
  else SUPPORTED_EXTENSIONS.

(** A candidate whose [stat] raises. *)
Definition unreadable (env : Env) (allowed : list string) (item : string)
  : bool :=
  is_file env item
  && str_in (str_lower (path_suffix item)) allowed
  && match stat env item with
     | Ok _ => false
     | Raise _ => true
     end.

(** The items the walk of [find_files] reaches: those before the first
    unreadable candidate. *)
Fixpoint readable_prefix (env : Env) (allowed : list string)
    (items : list string) : list string :=
  match items with
  | [] => []
  | item :: rest =>
      if unreadable env allowed item then []
      else item :: readable_prefix env allowed rest
  end.

(** A file the scanner can work on: [stat] answers and the extension is
    an image or video extension. *)
Definition processable (env : Env) (f : string) : Prop :=
  exists s ft, stat env f = Ok s /\ get_file_type f = Some ft.



(** The world [process_files] hands to [process_file] for a file, and
    the world it goes on with. *)
Definition before_file (w : World) (f : string) : World :=
  {| db := db w;
     scan_status := set_current_file (Some (path_name f)) (scan_status w);
     clock := clock w;
     events := events w |}.

Definition after_file (w : World) : World :=
  {| db := db w;
     scan_status :=
       set_processed_files (processed_files (scan_status w) + 1) (scan_status w);
     clock := clock w;
     events := events w |}.



(** The same when every file got the error entry of the exception [e]. *)
Definition progress_failed (e : exn) (s : ScanStatus) (f : string)
  : ScanStatus :=
  set_processed_files (processed_files s + 1)
    (append_error (path_name f ++ ": " ++ exn_str e)%string
                  (set_current_file (Some (path_name f)) s)).

Definition all_failed (e : exn) (s : ScanStatus) (files : list string)
  : ScanStatus :=
  List.fold_left (progress_failed e) files s.

(** The world when the [try] block of [scan_directory] is entered. *)
Definition scan_started (w : World) (directory scope : string) : World :=
  {| db := db w;
     scan_status :=
       set_start_time (Some (clock w))
         (set_file_type scope
            (set_scanned_path (Some directory) (set_is_scanning true reset)));
     clock := clock w + 1;
     events := events w |}.


(** The world after [total_files] was set. *)
Definition with_total (w : World) (files : list string) : World :=
  {| db := db w;
     scan_status :=
       set_total_files (Z.of_nat (List.length files)) (scan_status w);
     clock := clock w;
     events := events w |}.

(** The world after the end time was taken and the flag cleared. *)
Definition scan_finished (w : World) : World :=
  {| db := db w;
     scan_status :=
       set_is_scanning false (set_end_time (Some (clock w)) (scan_status w));
     clock := clock w + 1;
     events := events w |}.


(** The scope [get_duplicates] queries: the one given, or else the scope
    of the last scan. *)
Definition effective_scope (file_type : option string) (w : World) : string :=
  match file_type with
  | None => scan_file_type (scan_status w)
  | Some t => t
  end.

(** The message [process_file] records for a file. *)
Definition file_error (file_path : string) (e : exn) : string :=
  (path_name file_path ++ ": " ++ exn_str e)%string.

(** The world [w] with another scan status. *)
Definition with_status (w : World) (s : ScanStatus) : World :=
  {| db := db w; scan_status := s; clock := clock w; events := events w |}.

(** The reported pairs in descending order of the percentage. *)
Definition percentage_ge (p q : DuplicatePair) : Prop :=
  (similarity_percentage q <= similarity_percentage p)%Q.

(** An environment like [sample_env] in which [b.jpg] and a file that
    was never scanned exist. *)
Definition disk_env : Env :=
  {| path_exists := fun p =>
       String.eqb p "/photos" || String.eqb p "/photos/b.jpg"
       || String.eqb p "/photos/unscanned.gif";
     is_dir := is_dir sample_env;
     is_file := is_file sample_env;
     rglob := rglob sample_env;
     stat := stat sample_env;
     resolve := resolve sample_env;
     extract_image_info := extract_image_info sample_env;
     extract_video_info := extract_video_info sample_env |}.

(** An operating system on which every [unlink] succeeds. *)
Definition unlink_ok (p : string) : result unit := Ok tt.

Definition sample_delete : DeleteRequest :=
  {| del_file_path := "/photos/b.jpg"; del_scan_base_path := "/photos" |}.

(** A request for a file next to the scanned directory, whose name
    starts like it. *)
Definition outside_delete : DeleteRequest :=
  {| del_file_path := "/photos2/b.jpg"; del_scan_base_path := "/photos" |}.


(** An environment like [sample_env] in which [b.jpg] cannot be read. *)
Definition broken_env : Env :=
  {| path_exists := path_exists sample_env;
     is_dir := is_dir sample_env;
     is_file := is_file sample_env;
     rglob := rglob sample_env;
     stat := fun p =>
       if String.eqb p "/photos/b.jpg"
       then Raise (Exn "PermissionError" "[Errno 13] Permission denied")
       else stat sample_env p;
     resolve := resolve sample_env;
     extract_image_info := extract_image_info sample_env;
     extract_video_info := extract_video_info sample_env |}.

(* ================================================================== *)
(** * Facts about the comparison loops *)
(* ================================================================== *)

Section ComparatorFacts.
Context {lib : ImageHashLib}.

Lemma inner_loop_step_on thr f1 rest st :
  inner_loop thr f1 rest st
  = List.fold_left (step_on thr) (List.map (fun f2 => (f1, f2)) rest) st.
Proof.
  unfold inner_loop. revert st.
  induction rest as [|f2 rest IH]; intros st; simpl; [reflexivity|].
  apply IH.
Qed.

Lemma outer_loop_all_pairs thr files st :
  outer_loop thr files st = List.fold_left (step_on thr) (all_pairs files) st.
Proof.
  revert st. induction files as [|f1 rest IH]; intros st; simpl.
  - reflexivity.
  - rewrite fold_left_app, IH, inner_loop_step_on. reflexivity.
Qed.

Lemma step_on_cases thr pairs compared c :
  step_on thr (pairs, compared) c
  = if bool_decide (rows_key c ∈ compared) then (pairs, compared)
    else match qualify thr c with
         | Some p => ((pairs ++ [p])%list, compared ∪ {[ rows_key c ]})
         | None => (pairs, compared ∪ {[ rows_key c ]})
         end.
Proof.
  unfold step_on, compare_step, qualify, rows_key, pair_of.
  destruct (bool_decide _); [reflexivity|].
  destruct (hash_missing (fst c) || hash_missing (snd c)); [reflexivity|].
  destruct (_ <=? _); reflexivity.
Qed.

Lemma fold_step_first_seen thr cands pairs compared :
  fst (List.fold_left (step_on thr) cands (pairs, compared))
  = (pairs ++ omap (qualify thr) (first_seen compared cands))%list.
Proof.
  revert pairs compared.
  induction cands as [|c cs IH]; intros pairs compared;
    cbn [List.fold_left first_seen].
  - simpl. now rewrite app_nil_r.
  - rewrite step_on_cases.
    destruct (bool_decide _); [apply IH|].
    cbn [omap list_omap]. destruct (qualify thr c) as [p|].
    + rewrite IH, <- app_assoc. reflexivity.
    + apply IH.
Qed.

(** The loops, as a function of the considered pairs. *)
Lemma compare_files_considered thr files :
  compare_files thr files = omap (qualify thr) (considered files).
Proof.
  unfold compare_files, considered.
  rewrite outer_loop_all_pairs, fold_step_first_seen. reflexivity.
Qed.

Lemma first_seen_elem compared cands c :
  c ∈ first_seen compared cands -> c ∈ cands /\ rows_key c ∉ compared.
Proof.
  revert compared. induction cands as [|d cs IH]; intros compared; simpl.
  - intros H. inversion H.
  - destruct (bool_decide_reflect (rows_key d ∈ compared)) as [Hin|Hnin].
    + intros H. apply IH in H as [H1 H2]. split; [now right|assumption].
    + intros H. apply elem_of_cons in H as [->|H].
      * split; [now left|assumption].
      * apply IH in H as [H1 H2]. split; [now right|].
        set_solver.
Qed.

Lemma first_seen_NoDup compared cands :
  NoDup (List.map rows_key (first_seen compared cands)).
Proof.
  revert compared. induction cands as [|d cs IH]; intros compared; simpl.
  - constructor.
  - destruct (bool_decide_reflect (rows_key d ∈ compared)); [apply IH|].
    simpl. apply NoDup_cons. split; [|apply IH].
    intros Hin. apply list_elem_of_fmap in Hin as [c [Hk Hc]].
    apply first_seen_elem in Hc as [_ Hc]. set_solver.
Qed.

Lemma first_seen_all compared cands :
  NoDup (List.map rows_key cands) ->
  (forall c, c ∈ cands -> rows_key c ∉ compared) ->
  first_seen compared cands = cands.
Proof.
  revert compared. induction cands as [|d cs IH]; intros compared Hnd Hfresh;
    simpl; [reflexivity|].
  simpl in Hnd. apply NoDup_cons in Hnd as [Hd Hnd].
  rewrite bool_decide_eq_false_2 by (apply Hfresh; now left).
  f_equal. apply IH; [assumption|].
  intros c Hc. specialize (Hfresh c (list_elem_of_further _ _ _ Hc)).
  assert (rows_key c <> rows_key d).
  { intros Heq. apply Hd. rewrite <- Heq.
    apply list_elem_of_fmap. now exists c. }
  set_solver.
Qed.

(** Every visited pair has its key among the considered ones. *)
Lemma first_seen_covers compared cands c :
  c ∈ cands ->
  rows_key c ∈ compared
  \/ rows_key c ∈ List.map rows_key (first_seen compared cands).
Proof.
  revert compared. induction cands as [|d cs IH]; intros compared Hc; simpl.
  - inversion Hc.
  - apply elem_of_cons in Hc as [->|Hc].
    + destruct (bool_decide_reflect (rows_key d ∈ compared)); [now left|].
      right. simpl. now left.
    + destruct (bool_decide_reflect (rows_key d ∈ compared)) as [Hin|Hnin].
      * now apply IH.
      * destruct (IH (compared ∪ {[ rows_key d ]}) Hc) as [H|H].
        -- apply elem_of_union in H as [H|H]; [now left|].
           apply elem_of_singleton in H. right. simpl. rewrite H. now left.
        -- right. simpl. now right.
Qed.

End ComparatorFacts.

Section PairFacts.
Context {lib : ImageHashLib}.

Lemma pair_key_inv a b c d :
  pair_key a b = pair_key c d -> (a = c /\ b = d) \/ (a = d /\ b = c).
Proof.
  unfold pair_key.
  destruct (String.ltb b a), (String.ltb d c); intros [= -> ->]; auto.
Qed.

Lemma pair_key_sym a b : pair_key a b = pair_key b a.
Proof.
  unfold pair_key, String.ltb.
  rewrite (String.compare_antisym a b).
  destruct (String.compare b a) eqn:E; simpl; try reflexivity.
  apply String.compare_eq_iff in E. now subst.
Qed.

Lemma all_pairs_elem files f1 f2 :
  (f1, f2) ∈ all_pairs files -> f1 ∈ files /\ f2 ∈ files.
Proof.
  induction files as [|f rest IH]; simpl; intros H.
  - inversion H.
  - apply elem_of_app in H as [H|H].
    + apply list_elem_of_fmap in H as [r [[= -> ->] Hr]].
      split; [apply list_elem_of_here|now apply list_elem_of_further].
    + destruct (IH H). split; now apply list_elem_of_further.
Qed.

Lemma all_pairs_before l1 r1 l2 r2 l3 :
  (r1, r2) ∈ all_pairs (l1 ++ r1 :: l2 ++ r2 :: l3).
Proof.
  induction l1 as [|x l1 IH]; simpl.
  - apply elem_of_app. left.
    apply list_elem_of_fmap. exists r2. split; [reflexivity|].
    apply elem_of_app. right. apply list_elem_of_here.
  - apply elem_of_app. right. exact IH.
Qed.

Lemma all_pairs_distinct_paths files f1 f2 :
  unique_paths files -> (f1, f2) ∈ all_pairs files ->
  row_path f1 <> row_path f2.
Proof.
  unfold unique_paths.
  induction files as [|f rest IH]; simpl; intros Hnd H.
  - inversion H.
  - apply NoDup_cons in Hnd as [Hf Hnd].
    apply elem_of_app in H as [H|H].
    + apply list_elem_of_fmap in H as [r [[= -> ->] Hr]].
      intros Heq. apply Hf. rewrite Heq.
      apply list_elem_of_fmap. now exists r.
    + now apply IH.
Qed.

Lemma all_pairs_keys_NoDup files :
  unique_paths files -> NoDup (List.map rows_key (all_pairs files)).
Proof.
  unfold unique_paths.
  induction files as [|f rest IH]; simpl; intros Hnd; [constructor|].
  apply NoDup_cons in Hnd as [Hf Hnd].
  rewrite List.map_app. apply NoDup_app. split; [|split].
  - clear IH. induction rest as [|r rest IH]; simpl; [constructor|].
    apply NoDup_cons in Hnd as [Hr Hnd].
    apply NoDup_cons. split.
    + intros H. apply list_elem_of_fmap in H as [c [Hk Hc]].
      apply list_elem_of_fmap in Hc as [r' [-> Hr']].
      unfold rows_key in Hk. simpl in Hk.
      apply pair_key_inv in Hk as [[_ Hk]|[Hk _]].
      * apply Hr. rewrite Hk. apply list_elem_of_fmap. now exists r'.
      * apply Hf. rewrite Hk. apply list_elem_of_fmap. exists r'.
        split; [reflexivity|now apply list_elem_of_further].
    + apply IH; [|assumption].
      intros H. apply Hf. now apply list_elem_of_further.
  - intros k H1 H2.
    apply list_elem_of_fmap in H1 as [c [-> Hc]].
    apply list_elem_of_fmap in Hc as [r [-> Hr]].
    apply list_elem_of_fmap in H2 as [[r1 r2] [Hk Hc]].
    apply all_pairs_elem in Hc as [Hr1 Hr2].
    unfold rows_key in Hk. simpl in Hk.
    apply pair_key_inv in Hk as [[Hk _]|[Hk _]]; apply Hf; rewrite Hk;
      apply list_elem_of_fmap; eauto.
  - now apply IH.
Qed.

(** With unique paths nothing is skipped by the [compared] test. *)
Lemma considered_all_pairs files :
  unique_paths files -> considered files = all_pairs files.
Proof.
  intros H. unfold considered. apply first_seen_all.
  - now apply all_pairs_keys_NoDup.
  - intros c _. set_solver.
Qed.

Lemma qualify_Some thr c p :
  qualify thr c = Some p ->
  hash_missing (fst c) = false /\ hash_missing (snd c) = false
  /\ hamming_distance (hash_text (fst c)) (hash_text (snd c)) <= thr
  /\ p = pair_of (fst c) (snd c).
Proof.
  unfold qualify.
  destruct (hash_missing (fst c)); [discriminate|].
  destruct (hash_missing (snd c)); [discriminate|]. simpl.
  destruct (Z.leb_spec (hamming_distance (hash_text (fst c)) (hash_text (snd c))) thr);
    [|discriminate].
  intros [= <-]. auto.
Qed.

Lemma paths_key_pair_of f1 f2 : paths_key (pair_of f1 f2) = rows_key (f1, f2).
Proof. reflexivity. Qed.

(** ** The stable sort *)

Lemma insert_by_score_perm p l : Permutation (p :: l) (insert_by_score p l).
Proof.
  induction l as [|q l IH]; simpl; [reflexivity|].
  destruct (_ <=? _); [reflexivity|].
  rewrite perm_swap. now apply perm_skip.
Qed.

Lemma sort_by_score_perm l : Permutation l (sort_by_score l).
Proof.
  induction l as [|p l IH]; simpl; [reflexivity|].
  rewrite <- insert_by_score_perm. now apply perm_skip.
Qed.

Lemma insert_by_score_sorted p l :
  StronglySorted score_le l -> StronglySorted score_le (insert_by_score p l).
Proof.
  induction l as [|q l IH]; simpl; intros Hs.
  - repeat constructor.
  - inversion Hs as [|? ? Hl Hq]; subst.
    destruct (Z.leb_spec (similarity_score p) (similarity_score q)) as [Hle|Hlt].
    + constructor; [assumption|].
      constructor; [exact Hle|].
      eapply List.Forall_impl; [|exact Hq].
      unfold score_le. intros; lia.
    + constructor; [now apply IH|].
      apply List.Forall_forall. intros x Hx.
      apply (Permutation_in _ (Permutation_sym (insert_by_score_perm p l))) in Hx.
      destruct Hx as [<-|Hx].
      * unfold score_le. lia.
      * rewrite List.Forall_forall in Hq. now apply Hq.
Qed.

Lemma sort_by_score_sorted l : StronglySorted score_le (sort_by_score l).
Proof.
  induction l as [|p l IH]; simpl; [constructor|].
  now apply insert_by_score_sorted.
Qed.

Lemma insert_by_score_stable k p l :
  with_score k (insert_by_score p l) = with_score k (p :: l).
Proof.
  unfold with_score.
  induction l as [|q l IH]; simpl; [reflexivity|].
  destruct (Z.leb_spec (similarity_score p) (similarity_score q)) as [Hle|Hlt];
    [reflexivity|].
  simpl. rewrite IH. simpl.
  destruct (Z.eqb_spec (similarity_score p) k) as [Hp|Hp];
    destruct (Z.eqb_spec (similarity_score q) k) as [Hq|Hq];
    try reflexivity.
  lia.
Qed.

Lemma sort_by_score_stable k l :
  with_score k (sort_by_score l) = with_score k l.
Proof.
  induction l as [|p l IH]; simpl; [reflexivity|].
  rewrite insert_by_score_stable.
  unfold with_score in *. simpl. now rewrite IH.
Qed.

Lemma find_duplicates_in_elem thr files p :
  p ∈ find_duplicates_in thr files <->
  exists c, c ∈ considered files /\ qualify thr c = Some p.
Proof.
  unfold find_duplicates_in.
  rewrite <- (sort_by_score_perm (compare_files thr files)).
  rewrite compare_files_considered. apply list_elem_of_omap.
Qed.

Lemma find_duplicates_in_rows thr files p :
  p ∈ find_duplicates_in thr files ->
  exists f1 f2, f1 ∈ files /\ f2 ∈ files
    /\ hash_missing f1 = false /\ hash_missing f2 = false
    /\ hamming_distance (hash_text f1) (hash_text f2) <= thr
    /\ p = pair_of f1 f2.
Proof.
  intros H. apply find_duplicates_in_elem in H as [[f1 f2] [Hc Hq]].
  apply first_seen_elem in Hc as [Hc _].
  apply all_pairs_elem in Hc as [H1 H2].
  apply qualify_Some in Hq. simpl in Hq.
  exists f1, f2. tauto.
Qed.

Lemma find_duplicates_in_keys_NoDup thr files :
  NoDup (List.map paths_key (find_duplicates_in thr files)).
Proof.
  unfold find_duplicates_in.
  apply (NoDup_Permutation_proper _ _
           (Permutation_map paths_key (sort_by_score_perm (compare_files thr files)))).
  rewrite compare_files_considered. unfold considered.
  generalize (first_seen_NoDup ∅ (all_pairs files)).
  generalize (first_seen ∅ (all_pairs files)). intros l.
  induction l as [|c l IH]; simpl; intros Hnd; [constructor|].
  apply NoDup_cons in Hnd as [Hc Hnd]. specialize (IH Hnd).
  destruct (qualify thr c) as [p|] eqn:Hq; [|exact IH].
  simpl. apply NoDup_cons. split; [|exact IH].
  intros Hin. apply Hc.
  apply list_elem_of_fmap in Hin as [q [Hk Hq']].
  apply list_elem_of_omap in Hq' as [d [Hd Hqd]].
  apply qualify_Some in Hq as (_ & _ & _ & ->).
  apply qualify_Some in Hqd as (_ & _ & _ & ->).
  rewrite !paths_key_pair_of in Hk. destruct c, d. simpl in Hk.
  rewrite Hk. apply list_elem_of_fmap. eexists. split; [|exact Hd]. reflexivity.
Qed.

End PairFacts.

Section MoreFacts.
Context {lib : ImageHashLib}.

Lemma all_pairs_positions files f1 f2 :
  (f1, f2) ∈ all_pairs files ->
  exists l1 l2 l3, files = (l1 ++ f1 :: l2 ++ f2 :: l3)%list.
Proof.
  induction files as [|f rest IH]; simpl; intros H.
  - inversion H.
  - apply elem_of_app in H as [H|H].
    + apply list_elem_of_fmap in H as [r [[= -> ->] Hr]].
      apply list_elem_of_split in Hr as (l2 & l3 & ->).
      now exists [], l2, l3.
    + destruct (IH H) as (l1 & l2 & l3 & ->).
      now exists (f :: l1), l2, l3.
Qed.

Lemma same_paths_key p q : same_paths p q -> paths_key p = paths_key q.
Proof.
  unfold paths_key. intros [[-> ->]|[-> ->]]; [reflexivity|apply pair_key_sym].
Qed.

Lemma insert_by_hash_perm r l : Permutation (r :: l) (insert_by_hash r l).
Proof.
  induction l as [|y l IH]; simpl; [reflexivity|].
  destruct (String.leb _ _); [reflexivity|].
  rewrite perm_swap. now apply perm_skip.
Qed.

Lemma order_by_hash_perm l : Permutation l (order_by_hash l).
Proof.
  induction l as [|r l IH]; simpl; [reflexivity|].
  rewrite <- insert_by_hash_perm. now apply perm_skip.
Qed.

Lemma py_max_spec a b :
  (a <= py_max a b)%Q /\ (b <= py_max a b)%Q
  /\ (py_max a b = a \/ py_max a b = b).
Proof.
  unfold py_max. destruct (Qcompare_spec a b) as [H|H|H].
  - split; [apply Qle_refl|]. split; [rewrite H; apply Qle_refl|now left].
  - split; [now apply Qlt_le_weak|]. split; [apply Qle_refl|now right].
  - split; [apply Qle_refl|]. split; [now apply Qlt_le_weak|now left].
Qed.

Lemma fold_left_sum_larger pairs a :
  (List.fold_left (fun total_mb pair =>
                     total_mb + py_max (fi_size_mb (file1 pair))
                                       (fi_size_mb (file2 pair)))%Q pairs a
   == a + sum_larger pairs)%Q.
Proof.
  revert a. induction pairs as [|p pairs IH]; intros a; simpl.
  - ring.
  - rewrite IH. unfold larger_size. ring.
Qed.

End MoreFacts.

(* ================================================================== *)
(** * Facts about the cache and the scanner *)
(* ================================================================== *)

Lemma str_in_app x l1 l2 : str_in x (l1 ++ l2) = str_in x l1 || str_in x l2.
Proof. unfold str_in. apply List.existsb_app. Qed.

Lemma find_files_loop_elem env allowed items files f :
  f ∈ find_files_loop env allowed items files ->
  f ∈ files
  \/ (str_in (str_lower (path_suffix f)) allowed = true
      /\ exists s, stat env f = Ok s).
Proof.
  revert files. induction items as [|item rest IH]; intros files; simpl.
  - now left.
  - destruct (is_file env item && str_in (str_lower (path_suffix item)) allowed)
      eqn:E; [|apply IH].
    destruct (stat env item) as [s|e] eqn:Es; [|now left].
    destruct (size_within_limit s); [|apply IH].
    intros H. apply IH in H as [H|H]; [|now right].
    apply elem_of_app in H as [H|H]; [now left|].
    apply list_elem_of_singleton in H as ->.
    apply andb_true_iff in E as [_ E]. right. eauto.
Qed.

(** A file that [find_files] returns has a type and can be stat'ed. *)
Lemma find_files_candidate env directory scope f :
  f ∈ find_files env directory scope ->
  exists s ft, stat env f = Ok s /\ get_file_type f = Some ft
               /\ (ft = "image" \/ ft = "video").
Proof.
  unfold find_files. intros H.
  apply find_files_loop_elem in H as [H|[Hext [s Hs]]]; [inversion H|].
  exists s. unfold get_file_type.
  destruct (str_in (str_lower (path_suffix f)) IMAGE_EXTENSIONS) eqn:Ei.
  { exists "image". auto. }
  destruct (str_in (str_lower (path_suffix f)) VIDEO_EXTENSIONS) eqn:Ev.
  { exists "video". auto. }
  exfalso.
  destruct (String.eqb scope "image"); [congruence|].
  destruct (String.eqb scope "video"); [congruence|].
  unfold SUPPORTED_EXTENSIONS in Hext. rewrite str_in_app, Ei, Ev in Hext.
  discriminate.
Qed.

Lemma get_file_type_cases f ft :
  get_file_type f = Some ft -> ft = "image" \/ ft = "video".
Proof.
  unfold get_file_type.
  destruct (str_in _ IMAGE_EXTENSIONS); [intros [= <-]; now left|].
  destruct (str_in _ VIDEO_EXTENSIONS); [intros [= <-]; now right|discriminate].
Qed.

Lemma upsert_rows_None fd t rows :
  upsert_rows fd t rows = None <-> List.find (path_is (fd_path fd)) rows = None.
Proof.
  induction rows as [|r rest IH]; simpl; [tauto|].
  destruct (path_is (fd_path fd) r); [split; discriminate|].
  destruct (upsert_rows fd t rest); [|tauto].
  split; [discriminate|]. intros H. apply IH in H. discriminate.
Qed.

Lemma upsert_rows_Some fd t rows rows' :
  upsert_rows fd t rows = Some rows' ->
  exists r, List.find (path_is (fd_path fd)) rows = Some r
            /\ List.find (path_is (fd_path fd)) rows' = Some (update_row fd t r).
Proof.
  revert rows'. induction rows as [|r rest IH]; simpl; intros rows';
    [discriminate|].
  destruct (path_is (fd_path fd) r) eqn:E.
  - intros [= <-]. exists r. split; [reflexivity|].
    simpl. unfold path_is in *. simpl. now rewrite E.
  - destruct (upsert_rows fd t rest) as [rest'|]; [|discriminate].
    intros [= <-]. destruct (IH _ eq_refl) as (r0 & H1 & H2).
    exists r0. split; [exact H1|]. simpl. now rewrite E.
Qed.

Lemma find_app_None {A} (f : A -> bool) l x :
  List.find f l = None -> List.find f (l ++ [x]) = if f x then Some x else None.
Proof.
  induction l as [|y l IH]; simpl; [reflexivity|].
  destruct (f y); [discriminate|exact IH].
Qed.

(** After an upsert the record of the path carries the data sent. *)
Lemma insert_or_update_file_stored d fd t d' :
  insert_or_update_file d fd t = Ok d' ->
  exists r,
    get_file_by_path d' (fd_path fd) = Ok (Some r)
    /\ row_path r = fd_path fd
    /\ row_size_bytes r = fd_size_bytes fd
    /\ row_width r = fd_width fd
    /\ row_height r = fd_height fd
    /\ row_modified_at r = fd_modified_at fd
    /\ row_hash r = fd_hash fd
    /\ row_scan_date r = t.
Proof.
  unfold insert_or_update_file, get_file_by_path.
  destruct (connection d) as [tb|]; [|discriminate].
  destruct (upsert_rows fd t (tbl_rows tb)) as [rows'|] eqn:E.
  - intros [= <-]. simpl.
    apply upsert_rows_Some in E as (r & H1 & H2).
    exists (update_row fd t r).
    split; [now rewrite H2|]. simpl.
    apply List.find_some in H1 as [_ H1]. unfold path_is in H1.
    apply String.eqb_eq in H1. repeat split; auto.
  - intros [= <-]. simpl. apply upsert_rows_None in E.
    exists (new_row fd t (tbl_seq tb + 1)).
    rewrite (find_app_None _ _ _ E). unfold path_is. simpl.
    rewrite String.eqb_refl. repeat split; auto.
Qed.

Lemma insert_or_update_file_open d tb fd t :
  connection d = Some tb -> exists d', insert_or_update_file d fd t = Ok d'.
Proof.
  intros H. unfold insert_or_update_file. rewrite H.
  destruct (upsert_rows fd t (tbl_rows tb)); eauto.
Qed.

(** [process_file], case by case. *)
Lemma process_file_cases env f w :
  match stat env f with
  | Raise e =>
      process_file env f w
      = (Ok None, after_error w (path_name f ++ ": " ++ exn_str e)%string)
  | Ok s =>
      match get_file_type f with
      | None => process_file env f w = (Ok None, w)
      | Some ft =>
          let fd := basic_file_data env f s ft in
          match get_file_by_path (db w) (fd_path fd) with
          | Raise e =>
              process_file env f w
              = (Ok None, after_error w (path_name f ++ ": " ++ exn_str e)%string)
          | Ok cached =>
              match cache_hit cached fd with
              | Some c => process_file env f w = (Ok (Some (Cached c)), w)
              | None =>
                  let stored := merge_info fd (extraction env f ft) in
                  exists d,
                    insert_or_update_file (db w) stored (clock w) = Ok d
                    /\ process_file env f w
                       = (Ok (Some (Stored stored)), after_store w f stored d)
              end
          end
      end
  end.
Proof.
  unfold process_file, try_catch, bind, os_stat, ret, raise,
    db_get_file_by_path, lift, modify_status, after_error.
  destruct (stat env f) as [s|e0]; [|reflexivity].
  destruct (get_file_type f) as [ft|] eqn:Eft; [|reflexivity].
  cbv zeta.
  destruct (get_file_by_path (db w) (fd_path (basic_file_data env f s ft)))
    as [cached|e] eqn:Eget; [|reflexivity].
  destruct (cache_hit cached _) as [c|] eqn:Ehit; [reflexivity|].
  assert (Hconn : exists tb, connection (db w) = Some tb).
  { unfold get_file_by_path in Eget.
    destruct (connection (db w)); [eauto|discriminate]. }
  destruct Hconn as [tb Hconn].
  destruct (insert_or_update_file_open (db w) tb
              (merge_info (basic_file_data env f s ft) (extraction env f ft))
              (clock w) Hconn) as [d Hd].
  exists d. split; [exact Hd|].
  apply get_file_type_cases in Eft.
  unfold extract_info, extraction, db_insert_or_update_file, bind, emit, now,
    lift, set_db, ret, after_store in *.
  destruct Eft as [-> | ->]; simpl; simpl in Hd; rewrite Hd; simpl;
    rewrite <- app_assoc; reflexivity.
Qed.

(** The [try] / [except] of [scan_directory] ends idle on both exits. *)
Lemma scan_try_except_ends env directory scope clear_cache w1 :
  ends_idle (try_catch (scan_try env directory scope clear_cache) scan_except w1).
Proof.
  unfold ends_idle, try_catch, scan_try, bind.
  destruct ((if clear_cache then db_clear_all else ret tt) w1) as [[u|e] w2].
  - cbv zeta. unfold modify_status.
    match goal with
    | |- context [process_files ?e ?l ?w] =>
        destruct (process_files e l w) as [[u'|e'] w4]
    end; simpl; eauto.
  - simpl. eauto.
Qed.

Lemma fd_path_merge_info fd info : fd_path (merge_info fd info) = fd_path fd.
Proof. now destruct info. Qed.

Lemma upsert_rows_other fd t rows rows' p :
  upsert_rows fd t rows = Some rows' -> p <> fd_path fd ->
  List.find (path_is p) rows' = List.find (path_is p) rows.
Proof.
  intros H Hne. revert rows' H.
  induction rows as [|r rest IH]; simpl; intros rows'; [discriminate|].
  destruct (path_is (fd_path fd) r) eqn:E.
  - intros [= <-]. simpl. unfold path_is in *. simpl.
    apply String.eqb_eq in E.
    destruct (String.eqb_spec (row_path r) p); [congruence|reflexivity].
  - destruct (upsert_rows fd t rest) as [rest'|]; [|discriminate].
    intros [= <-]. simpl. now rewrite (IH _ eq_refl).
Qed.

Lemma find_app_other {A} (f : A -> bool) l x :
  f x = false -> List.find f (l ++ [x]) = List.find f l.
Proof.
  intros Hx. induction l as [|y l IH]; simpl; [now rewrite Hx|].
  now destruct (f y).
Qed.

(** An upsert leaves the records of the other paths as they were. *)
Lemma insert_or_update_file_other d fd t d' p :
  insert_or_update_file d fd t = Ok d' -> p <> fd_path fd ->
  get_file_by_path d' p = get_file_by_path d p.
Proof.
  unfold insert_or_update_file, get_file_by_path. intros H Hne.
  destruct (connection d) as [tb|]; [|discriminate].
  destruct (upsert_rows fd t (tbl_rows tb)) as [rows'|] eqn:E;
    injection H as <-; simpl.
  - now rewrite (upsert_rows_other _ _ _ _ _ E Hne).
  - rewrite find_app_other; [reflexivity|].
    unfold path_is. simpl.
    destruct (String.eqb_spec (fd_path fd) p); [congruence|reflexivity].
Qed.

Lemma process_file_returns env f w :
  exists r, fst (process_file env f w) = Ok r.
Proof.
  pose proof (process_file_cases env f w) as Hc.
  destruct (stat env f); [|rewrite Hc; eauto].
  destruct (get_file_type f); [|rewrite Hc; eauto].
  cbv zeta in Hc.
  destruct (get_file_by_path _ _); [|rewrite Hc; eauto].
  destruct (cache_hit _ _); [rewrite Hc; eauto|].
  destruct Hc as (d & _ & ->). eauto.
Qed.

(** Processing a file keeps the record of a path [p], unless the file
    resolves to [p] and its modification time on disk differs. *)
Lemma process_file_frame env f w p c :
  get_file_by_path (db w) p = Ok (Some c) ->
  (resolve env f = p ->
   exists s, stat env f = Ok s /\ st_mtime s = row_modified_at c) ->
  get_file_by_path (db (snd (process_file env f w))) p = Ok (Some c).
Proof.
  intros Hget Hsame.
  pose proof (process_file_cases env f w) as Hc.
  destruct (stat env f) as [s|e0] eqn:Es; [|now rewrite Hc].
  destruct (get_file_type f) as [ft|]; [|now rewrite Hc].
  cbv zeta in Hc. simpl fd_path in Hc.
  destruct (get_file_by_path (db w) (resolve env f)) as [cached|e] eqn:Eg;
    [|now rewrite Hc].
  destruct (cache_hit cached _) as [c0|] eqn:Eh; [now rewrite Hc|].
  destruct Hc as (d & Hd & ->). simpl.
  destruct (String.eqb_spec (resolve env f) p) as [Heq|Hne].
  - exfalso. destruct (Hsame Heq) as (s' & [= <-] & Hm).
    rewrite Heq, Hget in Eg. injection Eg as <-.
    unfold cache_hit in Eh. simpl in Eh.
    now rewrite <- Hm, Z.eqb_refl in Eh.
  - rewrite (insert_or_update_file_other _ _ _ _ p Hd); [exact Hget|].
    rewrite fd_path_merge_info. simpl. congruence.
Qed.

Lemma process_files_frame env files w p c :
  get_file_by_path (db w) p = Ok (Some c) ->
  (forall f, f ∈ files -> resolve env f = p ->
             exists s, stat env f = Ok s /\ st_mtime s = row_modified_at c) ->
  get_file_by_path (db (snd (process_files env files w))) p = Ok (Some c).
Proof.
  revert w. induction files as [|f rest IH]; intros w Hget Hsame; simpl;
    [exact Hget|].
  unfold bind, modify_status.
  match goal with
  | |- context [process_file env f ?w1] =>
      pose proof (process_file_frame env f w1 p c Hget
                    (Hsame f (list_elem_of_here _ _))) as Hf;
      destruct (process_file_returns env f w1) as [r Hr];
      destruct (process_file env f w1) as [r' w2]
  end.
  simpl in Hr, Hf. subst r'.
  apply IH; [exact Hf|].
  intros f' Hin. apply Hsame. now apply list_elem_of_further.
Qed.

(** A scan that does not clear the cache keeps every record whose file
    is unchanged on disk. *)
Lemma scan_directory_frame env directory scope w p c :
  is_scanning (scan_status w) = false ->
  get_file_by_path (db w) p = Ok (Some c) ->
  (forall f, f ∈ find_files env directory scope -> resolve env f = p ->
             exists s, stat env f = Ok s /\ st_mtime s = row_modified_at c) ->
  get_file_by_path (db (snd (scan_directory env directory scope false w))) p
  = Ok (Some c).
Proof.
  intros Hidle Hget Hsame.
  unfold scan_directory, bind, get_status. rewrite Hidle.
  unfold modify_status, now, try_catch, scan_try, bind, ret, modify_status.
  cbv zeta.
  match goal with
  | |- context [process_files env ?l ?w1] =>
      pose proof (process_files_frame env l w1 p c Hget Hsame) as Hf;
      destruct (process_files env l w1) as [[u|e] w2]
  end; simpl in Hf |- *; exact Hf.
Qed.

Section FallbackFacts.
Context {lib : ImageHashLib}.

Lemma hash_missing_false r :
  hash_missing r = false ->
  exists h, row_hash r = Some h /\ h <> "" /\ hash_text r = h.
Proof.
  unfold hash_missing, hash_text. destruct (row_hash r) as [h|]; [|discriminate].
  intros H. exists h. repeat split; try reflexivity.
  intros ->. discriminate.
Qed.



Lemma find_duplicates_open db tb thr scope :
  connection db = Some tb ->
  exists files, get_files_with_hashes db scope = Ok files
                /\ find_duplicates db thr scope
                   = Ok (find_duplicates_in thr files).
Proof.
  intros H. unfold find_duplicates, get_files_with_hashes. rewrite H.
  destruct (String.eqb scope "both"); eauto.
Qed.

End FallbackFacts.

(* ================================================================== *)
(** * The embedding on sample inputs *)
(* ================================================================== *)

Example hamming_distance_one_bit :
  hamming_distance (lib := imagehash) "0000000000000000" "0000000000000001" = 1.
Proof. reflexivity. Qed.

Example hamming_distance_undecodable :
  hamming_distance (lib := imagehash) "zz" "0000000000000001" = 999.
Proof. reflexivity. Qed.

Example hamming_distance_sizes_differ :
  hamming_distance (lib := imagehash) "00ff" "0000000000000001" = 999.
Proof. reflexivity. Qed.

(** 98.4375 is rounded up; 96.875 and 90.625 are ties and go to the even
    neighbour. *)
Example similarity_percentages :
  List.map (fun d => calculate_similarity_percentage d 8) [0; 1; 2; 6]
  = [100%Q; Qred 98.44; Qred 96.88; Qred 90.62].
Proof. reflexivity. Qed.

Example suffixes :
  List.map path_suffix ["/a/b/c.JPG"; "/a/.hidden"; "a.tar.gz"; "a."; "noext"]
  = [".JPG"; ""; ".gz"; ""; ""].
Proof. reflexivity. Qed.

Example find_files_sample :
  find_files sample_env "/photos" "both"
  = ["/photos/a.jpg"; "/photos/b.jpg"; "/photos/new.PNG"; "/photos/clip.mp4"].
Proof. reflexivity. Qed.

(** Pairs of equal score stay in the order of the loops: [(a, b)] was
    produced before [(b, c)]. *)
Example find_duplicates_sample :
  List.map (fun p => (fi_filename (file1 p), fi_filename (file2 p),
                      similarity_score p))
           (find_duplicates_in (lib := imagehash) 5 sample_rows)
  = [("a.jpg", "b.jpg", 1); ("b.jpg", "c.jpg", 1); ("a.jpg", "c.jpg", 2)].
Proof. vm_compute. reflexivity. Qed.

Example scan_sample :
  fst (scan_directory sample_env "/photos" "both" false sample_world)
  = Ok {| is_scanning := false;
          scanned_path := Some "/photos";
          scan_file_type := "both";
          total_files := 4;
          processed_files := 4;
          current_file := Some "clip.mp4";
          errors := [];
          start_time := Some 5000;
          end_time := Some 5004 |}.
Proof. vm_compute. reflexivity. Qed.

Example start_scan_accepted_path :
  fst (start_scan sample_env sample_request sample_world)
  = (Unhandled (Exn "AttributeError"
                    "'ScanRequest' object has no attribute 'clear_cache'"),
     []).
Proof. reflexivity. Qed.

(* ================================================================== *)
(** * Properties of the duplicate detection engine *)
(* ================================================================== *)

Lemma round_half_even_comp x y : (x == y)%Q -> round_half_even x = round_half_even y.
Proof.
  intros H. unfold round_half_even.
  rewrite (Qfloor_comp _ _ H).
  assert (Hc : ((x - inject_Z (Qfloor y)) ?= (1 # 2))%Q
               = ((y - inject_Z (Qfloor y)) ?= (1 # 2))%Q).
  { apply Qcompare_comp; [now rewrite H|reflexivity]. }
  now rewrite Hc.
Qed.

Lemma py_round_comp x y n : (x == y)%Q -> py_round x n = py_round y n.
Proof.
  intros H. unfold py_round.
  rewrite (round_half_even_comp (x * _)%Q (y * inject_Z (10 ^ Z.of_nat n))%Q);
    [reflexivity|now rewrite H].
Qed.

(** C1.  Every pair reported by [find_duplicates] carries the similarity
    percentage [round((1 - distance / max_possible_distance) * 100, 2)],
    where [distance] is the Hamming distance of the two stored
    fingerprints and [max_possible_distance] is the square of the
    configured hash size ([HASH_SIZE * HASH_SIZE], 64); a pair at
    distance 1 is reported with 98.44. *)
Theorem C1_similarity_percentage {lib : ImageHashLib} thr files p :
  p ∈ find_duplicates_in thr files ->
  similarity_percentage p
  = py_round ((1 - inject_Z (similarity_score p)
                   / inject_Z (HASH_SIZE * HASH_SIZE)) * 100)%Q 2
  /\ (exists h1 h2,
         fi_hash (file1 p) = Some h1 /\ fi_hash (file2 p) = Some h2
         /\ similarity_score p = hamming_distance h1 h2)
  /\ (similarity_score p = 1 -> Qeq (similarity_percentage p) 98.44%Q).
Proof.
  intros H.
  apply find_duplicates_in_rows in H
    as (f1 & f2 & _ & _ & H1 & H2 & _ & ->).
  apply hash_missing_false in H1 as (h1 & E1 & _ & T1).
  apply hash_missing_false in H2 as (h2 & E2 & _ & T2).
  split; [reflexivity|]. split.
  - exists h1, h2. simpl. rewrite T1, T2. auto.
  - simpl. intros ->. reflexivity.
Qed.

Lemma C1_similarity_percentage_witness :
  pair_of (lib := imagehash) row_a row_b
    ∈ find_duplicates_in (lib := imagehash) 5 [row_a; row_b]
  /\ hamming_distance (lib := imagehash) "0000000000000000" "0000000000000001" = 1
  /\ Qeq (similarity_percentage (pair_of (lib := imagehash) row_a row_b)) 98.44%Q.
Proof.
  assert (Hin : pair_of (lib := imagehash) row_a row_b
                  ∈ find_duplicates_in (lib := imagehash) 5 [row_a; row_b]).
  { vm_compute. apply list_elem_of_here. }
  split; [exact Hin|]. split; [reflexivity|].
  apply (C1_similarity_percentage (lib := imagehash) 5 [row_a; row_b] _ Hin).
  reflexivity.
Defined.



(** C6.  The comparison loops consider every unordered pair of paths
    exactly once: every visited pair of rows has its key among the
    considered ones, no key is considered twice, and the reported pairs
    are what the considered pairs contribute.  Hence no unordered pair of
    paths is reported twice, whatever the order or repetition of the
    rows; a reported pair is made of rows at two different positions;
    and when paths are unique (the table's constraint) nothing is
    skipped, the two paths of a pair differ, and every qualifying pair of
    rows is reported. *)
Theorem C6_unordered_pairs_once {lib : ImageHashLib} thr files :
  (forall c, c ∈ all_pairs files ->
             rows_key c ∈ List.map rows_key (considered files))
  /\ NoDup (List.map rows_key (considered files))
  /\ compare_files thr files = omap (qualify thr) (considered files)
  /\ NoDup (List.map paths_key (find_duplicates_in thr files))
  /\ (forall i j p q,
        find_duplicates_in thr files !! i = Some p ->
        find_duplicates_in thr files !! j = Some q ->
        same_paths p q -> i = j)
  /\ (forall p, p ∈ find_duplicates_in thr files ->
        exists l1 f1 l2 f2 l3,
          files = (l1 ++ f1 :: l2 ++ f2 :: l3)%list /\ p = pair_of f1 f2)
  /\ (unique_paths files ->
        considered files = all_pairs files
        /\ (forall p, p ∈ find_duplicates_in thr files ->
              fi_path (file1 p) <> fi_path (file2 p))
        /\ (forall l1 r1 l2 r2 l3 p,
              files = (l1 ++ r1 :: l2 ++ r2 :: l3)%list ->
              qualify thr (r1, r2) = Some p ->
              p ∈ find_duplicates_in thr files)).
Proof.
  split; [|split; [|split; [|split; [|split; [|split]]]]].
  - intros c Hc. unfold considered.
    destruct (first_seen_covers ∅ _ _ Hc) as [H|H]; [set_solver|exact H].
  - apply first_seen_NoDup.
  - apply compare_files_considered.
  - apply find_duplicates_in_keys_NoDup.
  - intros i j p q Hi Hj Hs.
    apply (NoDup_lookup _ i j (paths_key p)
             (find_duplicates_in_keys_NoDup thr files)).
    + change (List.map paths_key (find_duplicates_in thr files))
        with (paths_key <$> find_duplicates_in thr files).
      now rewrite list_lookup_fmap, Hi.
    + change (List.map paths_key (find_duplicates_in thr files))
        with (paths_key <$> find_duplicates_in thr files).
      rewrite list_lookup_fmap, Hj. simpl. f_equal.
      symmetry. now apply same_paths_key.
  - intros p Hp. apply find_duplicates_in_elem in Hp as [[f1 f2] [Hc Hq]].
    apply first_seen_elem in Hc as [Hc _].
    apply all_pairs_positions in Hc as (l1 & l2 & l3 & ->).
    apply qualify_Some in Hq as (_ & _ & _ & ->).
    now exists l1, f1, l2, f2, l3.
  - intros Hu. split; [now apply considered_all_pairs|]. split.
    + intros p Hp. apply find_duplicates_in_elem in Hp as [[f1 f2] [Hc Hq]].
      apply first_seen_elem in Hc as [Hc _].
      apply qualify_Some in Hq as (_ & _ & _ & ->).
      simpl. now apply (all_pairs_distinct_paths files).
    + intros l1 r1 l2 r2 l3 p -> Hq.
      apply find_duplicates_in_elem. exists (r1, r2). split; [|exact Hq].
      rewrite (considered_all_pairs _ Hu). apply all_pairs_before.
Qed.

Lemma C6_unordered_pairs_once_witness :
  unique_paths sample_rows
  /\ considered sample_rows = all_pairs sample_rows
  /\ NoDup (List.map paths_key
              (find_duplicates_in (lib := imagehash) 5 (row_a :: sample_rows))).
Proof.
  assert (Hu : unique_paths sample_rows).
  { unfold unique_paths.
    apply (bool_decide_unpack (NoDup (List.map row_path sample_rows))).
    vm_compute. exact I. }
  split; [exact Hu|]. split.
  - apply (C6_unordered_pairs_once (lib := imagehash) 5 sample_rows). exact Hu.
  - apply (C6_unordered_pairs_once (lib := imagehash) 5 (row_a :: sample_rows)).
Defined.

(** C7.  The list returned by [find_duplicates] is sorted by ascending
    score, it is a rearrangement of the pairs the loops produced, and
    the pairs of any one score appear in the order the loops produced
    them. *)
Theorem C7_sorted_stable {lib : ImageHashLib} thr files :
  StronglySorted score_le (find_duplicates_in thr files)
  /\ Permutation (compare_files thr files) (find_duplicates_in thr files)
  /\ forall k, with_score k (find_duplicates_in thr files)
               = with_score k (compare_files thr files).
Proof.
  unfold find_duplicates_in. split; [|split].
  - apply sort_by_score_sorted.
  - apply sort_by_score_perm.
  - intros k. apply sort_by_score_stable.
Qed.

(** C8.  The potential savings are the sum over the pairs of the larger
    of the two sizes in megabytes, rounded to two decimals; each pair
    contributes on its own, so a file that is the larger one in two
    pairs is counted twice; no pairs give zero; and the total that
    [get_duplicates] reports is this value for the pairs it reports. *)
Theorem C8_potential_savings {lib : ImageHashLib} found :
  calculate_potential_savings found = py_round (sum_larger found) 2
  /\ (forall p, (fi_size_mb (file1 p) <= larger_size p)%Q
                /\ (fi_size_mb (file2 p) <= larger_size p)%Q
                /\ (larger_size p = fi_size_mb (file1 p)
                    \/ larger_size p = fi_size_mb (file2 p)))
  /\ (forall p rest, sum_larger (p :: rest) = (larger_size p + sum_larger rest)%Q)
  /\ (forall p q f,
        larger_size p = fi_size_mb f -> larger_size q = fi_size_mb f ->
        calculate_potential_savings [p; q]
        = py_round (fi_size_mb f + fi_size_mb f)%Q 2)
  /\ calculate_potential_savings [] = 0%Q
  /\ (forall threshold file_type w r,
        get_duplicates threshold file_type w = Response r ->
        total_potential_savings_mb r = py_round (sum_larger (pairs r)) 2).
Proof.
  assert (Hsum : forall l, calculate_potential_savings l = py_round (sum_larger l) 2).
  { intros l. unfold calculate_potential_savings. apply py_round_comp.
    rewrite fold_left_sum_larger. ring. }
  split; [apply Hsum|]. split; [intros p; apply py_max_spec|].
  split; [reflexivity|]. split; [|split; [reflexivity|]].
  - intros p q f Hp Hq. rewrite Hsum. apply py_round_comp.
    simpl. rewrite Hp, Hq. ring.
  - intros threshold file_type w r. unfold get_duplicates.
    destruct ((threshold <? 0) || (15 <? threshold)); [discriminate|].
    cbv zeta.
    match goal with
    | |- context [negb ?b] => destruct (negb b); [discriminate|]
    end.
    destruct (find_duplicates _ _ _) as [l|e]; [|discriminate].
    intros [= <-]. simpl. apply Hsum.
Qed.

Lemma C8_potential_savings_witness :
  larger_size (pair_of (lib := imagehash) row_a row_b) = 3%Q
  /\ larger_size (pair_of (lib := imagehash) row_b row_c) = 3%Q
  /\ calculate_potential_savings
       [pair_of (lib := imagehash) row_a row_b;
        pair_of (lib := imagehash) row_b row_c] = 6%Q.
Proof.
  split; [reflexivity|]. split; [reflexivity|].
  transitivity (py_round (fi_size_mb (db_row_to_file_info row_b)
                          + fi_size_mb (db_row_to_file_info row_b))%Q 2).
  - apply (C8_potential_savings (lib := imagehash) []); reflexivity.
  - reflexivity.
Defined.

(** C10.  A row whose fingerprint is the empty string is returned by
    [get_files_with_hashes] (which drops NULL fingerprints only), and
    [find_duplicates] reports a pair only when both fingerprints are
    non-empty strings, so such a row is in no reported pair. *)
Theorem C10_empty_fingerprint_skipped {lib : ImageHashLib} db t thr scope r :
  connection db = Some t ->
  r ∈ tbl_rows t ->
  row_hash r = Some "" ->
  scope = "both" \/ row_file_type r = scope ->
  (exists files,
      get_files_with_hashes db scope = Ok files
      /\ r ∈ files
      /\ find_duplicates db thr scope = Ok (find_duplicates_in thr files))
  /\ (forall files p,
        p ∈ find_duplicates_in thr files ->
        (exists h1 h2,
            fi_hash (file1 p) = Some h1 /\ h1 <> ""
            /\ fi_hash (file2 p) = Some h2 /\ h2 <> "")
        /\ file1 p <> db_row_to_file_info r
        /\ file2 p <> db_row_to_file_info r).
Proof.
  intros Hconn Hr Hh Hscope. split.
  - unfold find_duplicates, get_files_with_hashes. rewrite Hconn.
    assert (Hnn : hash_is_not_null r = true).
    { unfold hash_is_not_null. now rewrite Hh. }
    apply list_elem_of_In in Hr.
    destruct (String.eqb scope "both") eqn:E; eexists;
      (split; [reflexivity|]); (split; [|reflexivity]);
      rewrite <- (order_by_hash_perm _);
      apply list_elem_of_In, List.filter_In; (split; [exact Hr|]).
    + exact Hnn.
    + rewrite Hnn. simpl. destruct Hscope as [->|<-].
      * discriminate.
      * apply String.eqb_refl.
  - intros files p Hp.
    apply find_duplicates_in_rows in Hp
      as (f1 & f2 & _ & _ & H1 & H2 & _ & ->).
    apply hash_missing_false in H1 as (h1 & E1 & N1 & _).
    apply hash_missing_false in H2 as (h2 & E2 & N2 & _).
    split; [exists h1, h2; simpl; auto|].
    split; intros Heq; apply (f_equal fi_hash) in Heq; simpl in Heq;
      congruence.
Qed.

Lemma C10_empty_fingerprint_skipped_witness :
  (exists files,
      get_files_with_hashes sample_db "both" = Ok files /\ row_empty ∈ files)
  /\ forall p, p ∈ find_duplicates_in (lib := imagehash) 5 sample_rows ->
               file1 p <> db_row_to_file_info row_empty
               /\ file2 p <> db_row_to_file_info row_empty.
Proof.
  assert (Hr : row_empty ∈ sample_rows).
  { unfold sample_rows. do 4 apply list_elem_of_further. apply list_elem_of_here. }
  destruct (C10_empty_fingerprint_skipped (lib := imagehash) sample_db
              {| tbl_rows := sample_rows; tbl_seq := 5 |} 5 "both" row_empty
              eq_refl Hr eq_refl (or_introl eq_refl))
    as [(files & H1 & H2 & _) H3].
  split.
  - exists files. split; assumption.
  - intros p Hp. apply (H3 sample_rows p Hp).
Defined.

(* ================================================================== *)
(** * Properties of the scan orchestrator *)
(* ================================================================== *)

(** C3.  For a file that [find_files] returned and an open cache: when
    the cache holds a record for the resolved path whose modification
    time equals the one on disk, [process_file] returns that record and
    leaves the world as it was (no extractor call, no write); otherwise
    it calls the extractor of the file's type, merges what it got into
    the basic data, sends one upsert and returns the stored data; after
    that the cache holds the new size, modification time and
    fingerprint for the path, the fingerprint being absent when the
    extraction failed. *)
Theorem C3_cache_freshness env directory scope file_path w tb :
  file_path ∈ find_files env directory scope ->
  connection (db w) = Some tb ->
  exists s ft,
    stat env file_path = Ok s
    /\ get_file_type file_path = Some ft
    /\ let fd := basic_file_data env file_path s ft in
       let cached := List.find (path_is (fd_path fd)) (tbl_rows tb) in
       (forall c,
           cached = Some c -> row_modified_at c = st_mtime s ->
           process_file env file_path w = (Ok (Some (Cached c)), w))
       /\ (cached = None
           \/ (exists c, cached = Some c /\ row_modified_at c <> st_mtime s) ->
           let info := extraction env file_path ft in
           let stored := merge_info fd info in
           exists d r,
             insert_or_update_file (db w) stored (clock w) = Ok d
             /\ process_file env file_path w
                = (Ok (Some (Stored stored)), after_store w file_path stored d)
             /\ get_file_by_path d (fd_path fd) = Ok (Some r)
             /\ row_size_bytes r = st_size s
             /\ row_modified_at r = st_mtime s
             /\ row_scan_date r = clock w
             /\ row_hash r = option_map info_hash info).
Proof.
  intros Hin Hconn.
  destruct (find_files_candidate _ _ _ _ Hin) as (s & ft & Hs & Hft & _).
  exists s, ft. split; [exact Hs|]. split; [exact Hft|].
  pose proof (process_file_cases env file_path w) as Hc.
  rewrite Hs, Hft in Hc. cbv zeta in Hc |- *.
  unfold get_file_by_path in Hc. rewrite Hconn in Hc.
  split.
  - intros c Hcached Hm. rewrite Hcached in Hc. unfold cache_hit in Hc.
    simpl in Hc. rewrite Hm, Z.eqb_refl in Hc. exact Hc.
  - intros Hmiss.
    assert (Hhit : cache_hit
                     (List.find (path_is (fd_path (basic_file_data env file_path s ft)))
                                (tbl_rows tb))
                     (basic_file_data env file_path s ft) = None).
    { destruct Hmiss as [->|(c & -> & Hne)]; [reflexivity|].
      unfold cache_hit. simpl.
      destruct (Z.eqb_spec (row_modified_at c) (st_mtime s)); [contradiction|].
      reflexivity. }
    rewrite Hhit in Hc. destruct Hc as (d & Hd & Hp).
    destruct (insert_or_update_file_stored _ _ _ _ Hd)
      as (r & Hr & _ & Hsz & _ & _ & Hmt & Hh & Hsd).
    rewrite fd_path_merge_info in Hr.
    exists d, r. repeat split; try assumption.
    + rewrite Hsz. now destruct (extraction env file_path ft).
    + rewrite Hmt. now destruct (extraction env file_path ft).
    + rewrite Hh. now destruct (extraction env file_path ft).
Qed.

Lemma C3_cache_freshness_witness :
  process_file sample_env "/photos/a.jpg" sample_world
  = (Ok (Some (Cached row_a)), sample_world)
  /\ exists d r,
       process_file sample_env "/photos/clip.mp4" sample_world
       = (Ok (Some (Stored (basic_file_data sample_env "/photos/clip.mp4"
                              {| st_size := 8192; st_ctime := 1900;
                                 st_mtime := 1900 |} "video"))),
          after_store sample_world "/photos/clip.mp4"
            (basic_file_data sample_env "/photos/clip.mp4"
               {| st_size := 8192; st_ctime := 1900; st_mtime := 1900 |}
               "video") d)
       /\ get_file_by_path d "/photos/clip.mp4" = Ok (Some r)
       /\ row_hash r = None.
Proof.
  assert (Ha : "/photos/a.jpg" ∈ find_files sample_env "/photos" "both").
  { vm_compute. apply list_elem_of_here. }
  assert (Hv : "/photos/clip.mp4" ∈ find_files sample_env "/photos" "video").
  { vm_compute. apply list_elem_of_here. }
  split.
  - destruct (C3_cache_freshness sample_env "/photos" "both" "/photos/a.jpg"
                sample_world {| tbl_rows := sample_rows; tbl_seq := 5 |}
                Ha eq_refl) as (s & ft & Hs & Hft & Hhit & _).
    injection Hs as <-. injection Hft as <-.
    apply (Hhit row_a); reflexivity.
  - destruct (C3_cache_freshness sample_env "/photos" "video" "/photos/clip.mp4"
                sample_world {| tbl_rows := sample_rows; tbl_seq := 5 |}
                Hv eq_refl) as (s & ft & Hs & Hft & _ & Hmiss).
    injection Hs as <-. injection Hft as <-.
    destruct (Hmiss (or_introl eq_refl))
      as (d & r & _ & Hp & Hr & _ & _ & _ & Hh).
    exists d, r. split; [exact Hp|]. split; [exact Hr|exact Hh].
Defined.

(** C9.  When the cache holds a record for the resolved path of a file
    and its modification time equals the one on disk, processing the
    file writes nothing: the cache, the list of events (no upsert, no
    extraction) and the clock are as before, and the record, with its
    scan date, is still the one stored.  Conversely a call of
    [process_file] that changes the cache or emits an event found no
    record for the path, or one with another modification time.  And a
    whole scan that keeps the cache leaves a record as it is when every
    enumerated file of its path has the stored modification time. *)
Theorem C9_cache_hit_no_write env file_path w s c :
  stat env file_path = Ok s ->
  get_file_by_path (db w) (resolve env file_path) = Ok (Some c) ->
  row_modified_at c = st_mtime s ->
  db (snd (process_file env file_path w)) = db w
  /\ events (snd (process_file env file_path w)) = events w
  /\ clock (snd (process_file env file_path w)) = clock w
  /\ get_file_by_path (db (snd (process_file env file_path w)))
                      (resolve env file_path) = Ok (Some c)
  /\ (forall env0 f0 w0,
        db (snd (process_file env0 f0 w0)) <> db w0
        \/ events (snd (process_file env0 f0 w0)) <> events w0 ->
        exists s0,
          stat env0 f0 = Ok s0
          /\ (get_file_by_path (db w0) (resolve env0 f0) = Ok None
              \/ exists c0,
                   get_file_by_path (db w0) (resolve env0 f0) = Ok (Some c0)
                   /\ row_modified_at c0 <> st_mtime s0))
  /\ (forall directory scope w0 p c0,
        is_scanning (scan_status w0) = false ->
        get_file_by_path (db w0) p = Ok (Some c0) ->
        (forall f, f ∈ find_files env directory scope -> resolve env f = p ->
                   exists s1, stat env f = Ok s1
                              /\ st_mtime s1 = row_modified_at c0) ->
        get_file_by_path
          (db (snd (scan_directory env directory scope false w0))) p
        = Ok (Some c0)).
Proof.
  intros Hs Hget Hm.
  assert (Hsame : db (snd (process_file env file_path w)) = db w
                  /\ events (snd (process_file env file_path w)) = events w
                  /\ clock (snd (process_file env file_path w)) = clock w).
  { pose proof (process_file_cases env file_path w) as Hc.
    rewrite Hs in Hc.
    destruct (get_file_type file_path) as [ft|]; [|now rewrite Hc].
    cbv zeta in Hc. simpl fd_path in Hc. rewrite Hget in Hc.
    unfold cache_hit in Hc. simpl in Hc. rewrite Hm, Z.eqb_refl in Hc.
    now rewrite Hc. }
  destruct Hsame as (Hdb & Hev & Hcl).
  split; [exact Hdb|]. split; [exact Hev|]. split; [exact Hcl|].
  split; [now rewrite Hdb|].
  split; [|intros directory scope w0 p c0; apply scan_directory_frame].
  intros env0 f0 w0 Hchg.
  pose proof (process_file_cases env0 f0 w0) as Hc.
  destruct (stat env0 f0) as [s0|e0];
    [|rewrite Hc in Hchg; simpl in Hchg; destruct Hchg; contradiction].
  exists s0. split; [reflexivity|].
  destruct (get_file_type f0) as [ft|];
    [|rewrite Hc in Hchg; destruct Hchg; contradiction].
  cbv zeta in Hc. simpl fd_path in Hc.
  destruct (get_file_by_path (db w0) (resolve env0 f0)) as [[c0|]|e];
    [| now left
     | rewrite Hc in Hchg; simpl in Hchg; destruct Hchg; contradiction].
  right. exists c0. split; [reflexivity|].
  unfold cache_hit in Hc. simpl in Hc.
  destruct (Z.eqb_spec (row_modified_at c0) (st_mtime s0)) as [_|Hne];
    [|exact Hne].
  rewrite Hc in Hchg. destruct Hchg; contradiction.
Qed.

Lemma C9_cache_hit_no_write_witness :
  db (snd (process_file sample_env "/photos/a.jpg" sample_world)) = sample_db
  /\ events (snd (process_file sample_env "/photos/a.jpg" sample_world)) = []
  /\ get_file_by_path
       (db (snd (process_file sample_env "/photos/a.jpg" sample_world)))
       "/photos/a.jpg" = Ok (Some row_a)
  /\ row_scan_date row_a = 2000.
Proof.
  destruct (C9_cache_hit_no_write sample_env "/photos/a.jpg" sample_world
              {| st_size := 1048576; st_ctime := 1000; st_mtime := 1500 |}
              row_a eq_refl eq_refl eq_refl)
    as (H1 & H2 & _ & H4 & _ & _).
  split; [exact H1|]. split; [exact H2|]. split; [exact H4|reflexivity].
Defined.

(** C4.  The [try] / [except] of [scan_directory], from any state, and
    so every run of [scan_directory] that is accepted (no scan was in
    progress), ends, whether it returns or raises, with the scanning
    flag cleared and the end time set; when it returns, it returns the
    final status; when it raises, the message of the exception is the
    last entry of the error list. *)
Theorem C4_scan_ends_idle env directory scope clear_cache :
  (forall w,
      ends_idle (try_catch (scan_try env directory scope clear_cache)
                           scan_except w))
  /\ (forall w,
        is_scanning (scan_status w) = false ->
        ends_idle (scan_directory env directory scope clear_cache w)).
Proof.
  split; [intros w; apply scan_try_except_ends|].
  intros w Hidle.
  unfold scan_directory, bind, get_status. rewrite Hidle.
  unfold modify_status, now.
  apply scan_try_except_ends.
Qed.

Lemma C4_scan_ends_idle_witness :
  is_scanning (scan_status sample_world) = false
  /\ ends_idle (scan_directory sample_env "/photos" "both" false sample_world)
  /\ (exists st,
        fst (scan_directory sample_env "/photos" "both" false sample_world)
        = Ok st)
  /\ is_scanning (scan_status closed_world) = false
  /\ ends_idle (scan_directory sample_env "/photos" "both" true closed_world)
  /\ fst (scan_directory sample_env "/photos" "both" true closed_world)
     = Raise no_connection.
Proof.
  split; [reflexivity|]. split.
  { apply (C4_scan_ends_idle sample_env "/photos" "both" false). reflexivity. }
  split; [eexists; vm_compute; reflexivity|].
  split; [reflexivity|]. split; [|reflexivity].
  apply (C4_scan_ends_idle sample_env "/photos" "both" true). reflexivity.
Defined.

(** C5.  While the scanning flag is set, [start_scan] answers with the
    conflict status 409 and queues no task, [scan_directory] raises
    "A scan is already in progress", and both leave the world, and so
    every field of the scan status, as it was. *)
Theorem C5_scan_rejected_while_running env request directory scope clear_cache w :
  is_scanning (scan_status w) = true ->
  start_scan env request w
  = (HTTPError 409 "A scan is already in progress", [], w)
  /\ scan_directory env directory scope clear_cache w
     = (Raise scan_in_progress, w).
Proof.
  intros Hrun. split.
  - unfold start_scan. now rewrite Hrun.
  - unfold scan_directory, bind, get_status, raise. now rewrite Hrun.
Qed.

Lemma C5_scan_rejected_while_running_witness :
  is_scanning (scan_status running_world) = true
  /\ start_scan sample_env sample_request running_world
     = (HTTPError 409 "A scan is already in progress", [], running_world)
  /\ scan_directory sample_env "/photos" "both" true running_world
     = (Raise scan_in_progress, running_world).
Proof.
  split; [reflexivity|].
  apply (C5_scan_rejected_while_running sample_env sample_request
           "/photos" "both" true running_world).
  reflexivity.
Defined.

(* ================================================================== *)
(** * Further properties of the duplicate detection engine *)
(* ================================================================== *)

Lemma model_count_sym a b : count_nonzero_ne a b = count_nonzero_ne b a.
Proof.
  revert b. induction a as [|x a IH]; intros [|y b]; simpl; try reflexivity.
  rewrite IH. now destruct x, y.
Qed.

Lemma model_hash_sub_sym (a b : list bool) :
  model_hash_sub a b = model_hash_sub b a.
Proof.
  unfold model_hash_sub. rewrite Nat.eqb_sym, model_count_sym. reflexivity.
Qed.

Lemma model_hash_sub_refl (a : list bool) : model_hash_sub a a = Some 0.
Proof.
  unfold model_hash_sub. rewrite Nat.eqb_refl. f_equal.
  induction a as [|x a IH]; simpl; [reflexivity|].
  rewrite IH. now destruct x.
Qed.

Lemma considered_two r1 r2 : considered [r1; r2] = [(r1, r2)].
Proof.
  unfold considered. simpl.
  rewrite bool_decide_eq_false_2 by set_solver. reflexivity.
Qed.

Lemma round_half_even_near x :
  (x - (1 # 2) <= inject_Z (round_half_even x)
   /\ inject_Z (round_half_even x) <= x + (1 # 2))%Q.
Proof.
  unfold round_half_even. cbv zeta.
  pose proof (Qfloor_le x) as Hlo. pose proof (Qlt_floor x) as Hhi.
  rewrite inject_Z_plus in Hhi. change (inject_Z 1) with 1%Q in Hhi.
  destruct (Qcompare_spec (x - inject_Z (Qfloor x)) (1 # 2)) as [H|H|H].
  - destruct (Z.even (Qfloor x));
      [|rewrite inject_Z_plus; change (inject_Z 1) with 1%Q]; lra.
  - lra.
  - rewrite inject_Z_plus. change (inject_Z 1) with 1%Q. lra.
Qed.

Lemma similarity_percentage_value d :
  (calculate_similarity_percentage d 8
   == inject_Z (round_half_even ((1 - inject_Z d / 64) * 100 * 100)) / 100)%Q.
Proof.
  unfold calculate_similarity_percentage, py_round. rewrite Qred_correct.
  reflexivity.
Qed.

Lemma similarity_percentage_strict d1 d2 :
  d1 < d2 ->
  (calculate_similarity_percentage d2 8 < calculate_similarity_percentage d1 8)%Q.
Proof.
  intros Hlt. rewrite !similarity_percentage_value.
  destruct (round_half_even_near ((1 - inject_Z d1 / 64) * 100 * 100)) as [H1 _].
  destruct (round_half_even_near ((1 - inject_Z d2 / 64) * 100 * 100)) as [_ H2].
  assert (Hd : (inject_Z d1 + 1 <= inject_Z d2)%Q).
  { change 1%Q with (inject_Z 1).
    rewrite <- (inject_Z_plus d1 1), <- Zle_Qle. lia. }
  set (a1 := inject_Z (round_half_even ((1 - inject_Z d1 / 64) * 100 * 100))) in *.
  set (a2 := inject_Z (round_half_even ((1 - inject_Z d2 / 64) * 100 * 100))) in *.
  set (q1 := inject_Z d1) in *. set (q2 := inject_Z d2) in *.
  clearbody a1 a2 q1 q2. unfold Qdiv in *.
  change (/ 64)%Q with (1 # 64)%Q in *. change (/ 100)%Q with (1 # 100)%Q.
  lra.
Qed.

Lemma similarity_percentage_antitone d1 d2 :
  d1 <= d2 ->
  (calculate_similarity_percentage d2 8 <= calculate_similarity_percentage d1 8)%Q.
Proof.
  intros Hle. destruct (Z.eq_dec d1 d2) as [->|Hne]; [apply Qle_refl|].
  apply Qlt_le_weak, similarity_percentage_strict. lia.
Qed.

(** X1.  When the subtraction of the library is symmetric, so is
    [hamming_distance], the fall-back value included. *)
Theorem X1_hamming_distance_symmetric {lib : ImageHashLib}
    (Hsym : forall a b, hash_sub a b = hash_sub b a) hash1 hash2 :
  hamming_distance hash1 hash2 = hamming_distance hash2 hash1.
Proof.
  unfold hamming_distance.
  destruct (hex_to_hash hash1) as [h1|], (hex_to_hash hash2) as [h2|];
    try reflexivity.
  now rewrite (Hsym h1 h2).
Qed.

Lemma X1_hamming_distance_symmetric_witness :
  hamming_distance (lib := imagehash) "00ff00ff00ff00ff" "zz"
  = hamming_distance (lib := imagehash) "zz" "00ff00ff00ff00ff".
Proof.
  apply (X1_hamming_distance_symmetric (lib := imagehash) model_hash_sub_sym).
Defined.

(** X2.  Two rows with the same non-empty fingerprint string are
    reported, with score 0 and 100 percent, at every threshold from 0 on
    when the string decodes; when it does not decode they are not
    reported at any threshold below 999. *)
Theorem X2_identical_fingerprints {lib : ImageHashLib} thr r1 r2 h :
  (forall x, hash_sub x x = Some 0) ->
  row_hash r1 = Some h -> row_hash r2 = Some h -> h <> "" ->
  (forall x, hex_to_hash h = Some x -> 0 <= thr ->
             find_duplicates_in thr [r1; r2] = [pair_of r1 r2]
             /\ similarity_score (pair_of r1 r2) = 0
             /\ similarity_percentage (pair_of r1 r2) = 100%Q)
  /\ (hex_to_hash h = None -> thr < 999 ->
      find_duplicates_in thr [r1; r2] = []).
Proof.
  intros Hrefl H1 H2 Hne.
  assert (Hm : hash_missing r1 || hash_missing r2 = false).
  { unfold hash_missing. rewrite H1, H2.
    destruct (String.eqb_spec h ""); [contradiction|reflexivity]. }
  assert (Ht1 : hash_text r1 = h) by (unfold hash_text; now rewrite H1).
  assert (Ht2 : hash_text r2 = h) by (unfold hash_text; now rewrite H2).
  unfold find_duplicates_in. rewrite compare_files_considered, considered_two.
  cbn [omap list_omap]. unfold qualify. cbn [fst snd]. rewrite Hm, Ht1, Ht2.
  split.
  - intros x Hx Hthr.
    assert (Hd : hamming_distance h h = 0).
    { unfold hamming_distance. now rewrite Hx, Hrefl. }
    rewrite Hd. destruct (Z.leb_spec 0 thr); [|lia].
    split; [reflexivity|].
    unfold pair_of. cbn [similarity_score similarity_percentage].
    rewrite Ht1, Ht2, Hd. split; reflexivity.
  - intros Hx Hthr.
    assert (Hd : hamming_distance h h = 999).
    { unfold hamming_distance. now rewrite Hx. }
    rewrite Hd. destruct (Z.leb_spec 999 thr); [lia|reflexivity].
Qed.

Lemma X2_identical_fingerprints_witness :
  find_duplicates_in (lib := imagehash) 0 [row_a; row_a]
  = [pair_of (lib := imagehash) row_a row_a]
  /\ find_duplicates_in (lib := imagehash) 15 [row_corrupt; row_corrupt] = [].
Proof.
  split.
  - destruct (X2_identical_fingerprints (lib := imagehash) 0 row_a row_a
                "0000000000000000" model_hash_sub_refl eq_refl eq_refl
                ltac:(discriminate)) as [H _].
    apply (H (List.repeat false 64)); [reflexivity|lia].
  - destruct (X2_identical_fingerprints (lib := imagehash) 15
                row_corrupt row_corrupt "zz" model_hash_sub_refl
                eq_refl eq_refl ltac:(discriminate)) as [_ H].
    apply H; [reflexivity|lia].
Defined.

(** X3.  Every reported pair has a score within the threshold, and
    raising the threshold only adds pairs. *)
Theorem X3_threshold_monotone {lib : ImageHashLib} thr1 thr2 files p :
  thr1 <= thr2 ->
  p ∈ find_duplicates_in thr1 files ->
  similarity_score p <= thr1 /\ p ∈ find_duplicates_in thr2 files.
Proof.
  intros Hle Hp.
  apply find_duplicates_in_elem in Hp as (c & Hc & Hq).
  pose proof (qualify_Some _ _ _ Hq) as (Hm1 & Hm2 & Hd & ->).
  split; [exact Hd|].
  apply find_duplicates_in_elem. exists c. split; [exact Hc|].
  unfold qualify. rewrite Hm1, Hm2. simpl.
  destruct (Z.leb_spec (hamming_distance (hash_text (fst c)) (hash_text (snd c)))
                       thr2); [reflexivity|lia].
Qed.

Lemma X3_threshold_monotone_witness :
  pair_of (lib := imagehash) row_a row_b
    ∈ find_duplicates_in (lib := imagehash) 15 sample_rows.
Proof.
  assert (H : pair_of (lib := imagehash) row_a row_b
                ∈ find_duplicates_in (lib := imagehash) 1 sample_rows).
  { vm_compute. apply list_elem_of_here. }
  apply (X3_threshold_monotone (lib := imagehash) 1 15 sample_rows _
           ltac:(lia) H).
Defined.

Lemma all_pairs_length files :
  (2 * List.length (all_pairs files)
   = List.length files * (List.length files - 1))%nat.
Proof.
  induction files as [|f rest IH]; [reflexivity|].
  cbn [all_pairs List.length].
  rewrite List.length_app, List.length_map.
  replace (S (List.length rest) - 1)%nat with (List.length rest) by lia.
  destruct (List.length rest) as [|m]; [simpl in *; lia|].
  replace (S m - 1)%nat with m in IH by lia. nia.
Qed.

Lemma first_seen_length compared cands :
  (List.length (first_seen compared cands) <= List.length cands)%nat.
Proof.
  revert compared. induction cands as [|c cs IH]; intros compared; simpl;
    [lia|].
  destruct (bool_decide _); simpl; [specialize (IH compared)
                                   |specialize (IH (compared ∪ {[rows_key c]}))];
    lia.
Qed.

Lemma omap_length_le {A B} (f : A -> option B) l :
  (List.length (omap f l) <= List.length l)%nat.
Proof.
  induction l as [|x l IH]; [simpl; lia|].
  change (omap f (x :: l))
    with (match f x with Some y => y :: omap f l | None => omap f l end).
  destruct (f x); cbn [List.length]; lia.
Qed.

(** X4.  Among [n] rows at most [n (n - 1) / 2] pairs are reported; in
    particular none for fewer than two rows. *)
Theorem X4_number_of_pairs {lib : ImageHashLib} thr files :
  (2 * List.length (find_duplicates_in thr files)
   <= List.length files * (List.length files - 1))%nat
  /\ ((List.length files < 2)%nat -> find_duplicates_in thr files = []).
Proof.
  assert (Hlen : (2 * List.length (find_duplicates_in thr files)
                  <= List.length files * (List.length files - 1))%nat).
  { unfold find_duplicates_in.
    rewrite <- (Permutation_length (sort_by_score_perm _)).
    rewrite compare_files_considered. unfold considered.
    pose proof (omap_length_le (qualify thr) (first_seen ∅ (all_pairs files))).
    pose proof (first_seen_length ∅ (all_pairs files)).
    pose proof (all_pairs_length files). lia. }
  split; [exact Hlen|].
  intros Hsmall. destruct (find_duplicates_in thr files) as [|p l];
    [reflexivity|].
  simpl in Hlen. exfalso.
  destruct files as [|f [|g rest]]; simpl in *; lia.
Qed.

Lemma X4_number_of_pairs_witness :
  find_duplicates_in (lib := imagehash) 15 [row_a] = [].
Proof.
  apply (X4_number_of_pairs (lib := imagehash) 15 [row_a]). simpl. lia.
Defined.

(** X5.  The similarity percentage falls strictly as the distance grows,
    it is 100 at distance 0 and lies between 0 and 100 for a distance of
    at most 64 bits; so the pairs [find_duplicates] returns are also in
    descending order of percentage. *)
Theorem X5_percentage_order {lib : ImageHashLib} thr files :
  (forall d1 d2,
      d1 < d2 ->
      (calculate_similarity_percentage d2 8
       < calculate_similarity_percentage d1 8)%Q)
  /\ calculate_similarity_percentage 0 8 = 100%Q
  /\ (forall d, 0 <= d <= 64 ->
                (0 <= calculate_similarity_percentage d 8 <= 100)%Q)
  /\ StronglySorted percentage_ge (find_duplicates_in thr files).
Proof.
  split; [exact similarity_percentage_strict|].
  split; [reflexivity|]. split.
  - intros d [Hlo Hhi]. split.
    + change 0%Q with (calculate_similarity_percentage 64 8).
      now apply similarity_percentage_antitone.
    + change 100%Q with (calculate_similarity_percentage 0 8).
      now apply similarity_percentage_antitone.
  - pose proof (sort_by_score_sorted (compare_files thr files)) as Hs.
    fold (find_duplicates_in thr files) in Hs.
    assert (Hall : forall p, p ∈ find_duplicates_in thr files ->
                             similarity_percentage p
                             = calculate_similarity_percentage
                                 (similarity_score p) 8).
    { intros p Hp. apply find_duplicates_in_rows in Hp
        as (f1 & f2 & _ & _ & _ & _ & _ & ->). reflexivity. }
    induction Hs as [|p l Hl IH Hp]; [constructor|].
    constructor.
    + apply IH. intros q Hq. apply Hall. now apply list_elem_of_further.
    + apply List.Forall_forall. intros q Hq.
      rewrite List.Forall_forall in Hp. specialize (Hp q Hq).
      unfold percentage_ge.
      rewrite (Hall p (list_elem_of_here _ _)).
      rewrite (Hall q (list_elem_of_further _ _ _ (proj2 (list_elem_of_In _ _) Hq))).
      now apply similarity_percentage_antitone.
Qed.

Lemma X5_percentage_order_witness :
  (calculate_similarity_percentage 15 8 < calculate_similarity_percentage 14 8)%Q
  /\ (0 <= calculate_similarity_percentage 15 8 <= 100)%Q.
Proof.
  split.
  - apply (X5_percentage_order (lib := imagehash) 5 []). lia.
  - apply (X5_percentage_order (lib := imagehash) 5 []). lia.
Defined.

(* ================================================================== *)
(** * Further properties of the cache *)
(* ================================================================== *)

Lemma insert_by_hash_sorted r l :
  Sorted hash_le l -> Sorted hash_le (insert_by_hash r l).
Proof.
  induction l as [|y l IH]; simpl; intros Hs.
  - repeat constructor.
  - destruct (String.leb (hash_text r) (hash_text y)) eqn:E.
    + constructor; [exact Hs|]. constructor. exact E.
    + apply Sorted_inv in Hs as [Hs Hhd].
      assert (Hyr : hash_le y r).
      { unfold hash_le.
        destruct (String.leb_total (hash_text r) (hash_text y)); congruence. }
      constructor; [now apply IH|].
      destruct l as [|z l]; simpl.
      * constructor. exact Hyr.
      * destruct (String.leb (hash_text r) (hash_text z)).
        -- constructor. exact Hyr.
        -- constructor. now inversion Hhd.
Qed.

Lemma order_by_hash_sorted l : Sorted hash_le (order_by_hash l).
Proof.
  induction l as [|r l IH]; simpl; [constructor|].
  now apply insert_by_hash_sorted.
Qed.

Lemma filter_unique_paths f rows :
  unique_paths rows -> unique_paths (List.filter f rows).
Proof.
  unfold unique_paths. induction rows as [|r rest IH]; simpl; intros H;
    [constructor|].
  apply NoDup_cons in H as [Hr H].
  destruct (f r); simpl; [|now apply IH].
  apply NoDup_cons. split; [|now apply IH].
  intros Hin. apply Hr.
  apply list_elem_of_fmap in Hin as (x & -> & Hx).
  apply list_elem_of_In, List.filter_In in Hx as [Hx _].
  apply list_elem_of_fmap. exists x. split; [reflexivity|].
  now apply list_elem_of_In.
Qed.

Lemma order_by_hash_unique_paths rows :
  unique_paths rows -> unique_paths (order_by_hash rows).
Proof.
  unfold unique_paths. intros H.
  apply (NoDup_Permutation_proper _ _
           (Permutation_map row_path (order_by_hash_perm rows))).
  exact H.
Qed.

(** X6.  On an open database [get_files_with_hashes] returns, in
    ascending order of the hash text, exactly the rows whose hash is not
    NULL and, for a scope other than "both", whose type is the scope; it
    keeps paths unique.  On a closed database it raises. *)
Theorem X6_files_with_hashes db t scope :
  connection db = Some t ->
  exists files,
    get_files_with_hashes db scope = Ok files
    /\ Sorted hash_le files
    /\ (forall r, r ∈ files <->
                  r ∈ tbl_rows t /\ row_hash r <> None
                  /\ (scope = "both" \/ row_file_type r = scope))
    /\ (List.length files <= List.length (tbl_rows t))%nat
    /\ (unique_paths (tbl_rows t) -> unique_paths files)
    /\ get_files_with_hashes {| connection := None |} scope
       = Raise no_connection.
Proof.
  intros Hconn. unfold get_files_with_hashes at 1. rewrite Hconn.
  assert (Hnn : forall r, hash_is_not_null r = true <-> row_hash r <> None).
  { intros r. unfold hash_is_not_null. destruct (row_hash r); split; congruence. }
  destruct (String.eqb_spec scope "both") as [->|Hne]; eexists;
    (split; [reflexivity|]); (split; [apply order_by_hash_sorted|]);
    (split; [|split; [|split; [|reflexivity]]]).
  - intros r. rewrite <- (order_by_hash_perm _).
    rewrite list_elem_of_In, List.filter_In, <- list_elem_of_In, Hnn. tauto.
  - rewrite <- (Permutation_length (order_by_hash_perm _)).
    apply List.filter_length_le.
  - intros Hu. now apply order_by_hash_unique_paths, filter_unique_paths.
  - intros r. rewrite <- (order_by_hash_perm _).
    rewrite list_elem_of_In, List.filter_In, <- list_elem_of_In,
      andb_true_iff, Hnn.
    destruct (String.eqb_spec (row_file_type r) scope); intuition congruence.
  - rewrite <- (Permutation_length (order_by_hash_perm _)).
    apply List.filter_length_le.
  - intros Hu. now apply order_by_hash_unique_paths, filter_unique_paths.
Qed.

Lemma X6_files_with_hashes_witness :
  exists files,
    get_files_with_hashes sample_db "video" = Ok files
    /\ forall r, r ∈ files -> row_file_type r = "video".
Proof.
  destruct (X6_files_with_hashes sample_db
              {| tbl_rows := sample_rows; tbl_seq := 5 |} "video" eq_refl)
    as (files & H1 & _ & H3 & _).
  exists files. split; [exact H1|].
  intros r Hr. apply H3 in Hr as (_ & _ & [Hb|Ht]); [discriminate|exact Ht].
Defined.

Lemma upsert_rows_paths fd now rows rows' :
  upsert_rows fd now rows = Some rows' ->
  List.map row_path rows' = List.map row_path rows
  /\ List.length rows' = List.length rows.
Proof.
  revert rows'. induction rows as [|r rest IH]; simpl; intros rows';
    [discriminate|].
  destruct (path_is (fd_path fd) r).
  - intros [= <-]. split; reflexivity.
  - destruct (upsert_rows fd now rest) as [rest'|]; [|discriminate].
    intros [= <-]. destruct (IH _ eq_refl) as [H1 H2]. simpl.
    now rewrite H1, H2.
Qed.

Lemma find_None_not_path path rows :
  List.find (path_is path) rows = None -> path ∉ List.map row_path rows.
Proof.
  intros H Hin. apply list_elem_of_fmap in Hin as (r & -> & Hr).
  apply list_elem_of_In in Hr.
  pose proof (List.find_none _ _ H r Hr) as Hf.
  unfold path_is in Hf. now rewrite String.eqb_refl in Hf.
Qed.

(** X7.  An upsert on an open database succeeds.  When the path is
    already stored, the row keeps its id, file name, creation time and
    file type and takes the size, dimensions, modification time, hash
    and scan date sent, and the number of rows is unchanged; otherwise
    one row with all the data sent is added at the end.  The records of
    the other paths are untouched and paths stay unique. *)
Theorem X7_upsert db t fd now :
  connection db = Some t ->
  exists t',
    insert_or_update_file db fd now = Ok {| connection := Some t' |}
    /\ match List.find (path_is (fd_path fd)) (tbl_rows t) with
       | Some r =>
           List.length (tbl_rows t') = List.length (tbl_rows t)
           /\ exists r',
                List.find (path_is (fd_path fd)) (tbl_rows t') = Some r'
                /\ row_id r' = row_id r
                /\ row_filename r' = row_filename r
                /\ row_created_at r' = row_created_at r
                /\ row_file_type r' = row_file_type r
                /\ row_size_bytes r' = fd_size_bytes fd
                /\ row_width r' = fd_width fd
                /\ row_height r' = fd_height fd
                /\ row_modified_at r' = fd_modified_at fd
                /\ row_hash r' = fd_hash fd
                /\ row_scan_date r' = now
       | None =>
           exists r',
             tbl_rows t' = (tbl_rows t ++ [r'])%list
             /\ row_path r' = fd_path fd
             /\ row_filename r' = fd_filename fd
             /\ row_created_at r' = fd_created_at fd
             /\ row_file_type r' = fd_file_type fd
             /\ row_size_bytes r' = fd_size_bytes fd
             /\ row_modified_at r' = fd_modified_at fd
             /\ row_hash r' = fd_hash fd
             /\ row_scan_date r' = now
       end
    /\ (forall p, p <> fd_path fd ->
                  List.find (path_is p) (tbl_rows t')
                  = List.find (path_is p) (tbl_rows t))
    /\ (unique_paths (tbl_rows t) -> unique_paths (tbl_rows t')).
Proof.
  intros Hconn. unfold insert_or_update_file. rewrite Hconn.
  destruct (upsert_rows fd now (tbl_rows t)) as [rows'|] eqn:E.
  - exists {| tbl_rows := rows'; tbl_seq := tbl_seq t |}.
    split; [reflexivity|]. simpl.
    destruct (upsert_rows_Some _ _ _ _ E) as (r & Hr & Hr').
    destruct (upsert_rows_paths _ _ _ _ E) as [Hp Hl].
    rewrite Hr. split; [|split].
    + split; [exact Hl|]. exists (update_row fd now r).
      split; [exact Hr'|]. simpl. repeat split; reflexivity.
    + intros p Hne. now apply (upsert_rows_other fd now).
    + unfold unique_paths. now rewrite Hp.
  - exists {| tbl_rows := (tbl_rows t ++ [new_row fd now (tbl_seq t + 1)])%list;
              tbl_seq := tbl_seq t + 1 |}.
    split; [reflexivity|]. simpl.
    apply upsert_rows_None in E. rewrite E. split; [|split].
    + eexists. split; [reflexivity|]. simpl. repeat split; reflexivity.
    + intros p Hne. apply find_app_other. unfold path_is. simpl.
      destruct (String.eqb_spec (fd_path fd) p); [congruence|reflexivity].
    + unfold unique_paths. intros Hu. rewrite List.map_app. simpl.
      apply NoDup_app. split; [exact Hu|]. split.
      * intros x Hx Hx'. apply list_elem_of_singleton in Hx'. subst x.
        now apply (find_None_not_path _ _ E).
      * apply NoDup_singleton.
Qed.

Lemma X7_upsert_witness :
  exists t' r',
    insert_or_update_file sample_db
      (basic_file_data sample_env "/photos/b.jpg"
         {| st_size := 7; st_ctime := 9000; st_mtime := 1700 |} "video") 5000
    = Ok {| connection := Some t' |}
    /\ List.find (path_is "/photos/b.jpg") (tbl_rows t') = Some r'
    /\ row_created_at r' = 1000
    /\ row_file_type r' = "image"
    /\ row_modified_at r' = 1700.
Proof.
  destruct (X7_upsert sample_db {| tbl_rows := sample_rows; tbl_seq := 5 |}
              (basic_file_data sample_env "/photos/b.jpg"
                 {| st_size := 7; st_ctime := 9000; st_mtime := 1700 |} "video")
              5000 eq_refl) as (t' & H1 & H2 & _).
  simpl in H2.
  destruct H2 as (_ & r' & Hf & _ & _ & Hc & Hty & _ & _ & _ & Hm & _).
  exists t', r'. repeat split; assumption.
Defined.

Lemma find_filter_removed path rows :
  List.find (path_is path)
            (List.filter (fun r => negb (path_is path r)) rows) = None.
Proof.
  induction rows as [|r rest IH]; simpl; [reflexivity|].
  destruct (path_is path r) eqn:E; simpl; [exact IH|].
  now rewrite E.
Qed.

Lemma find_filter_other path p rows :
  p <> path ->
  List.find (path_is p) (List.filter (fun r => negb (path_is path r)) rows)
  = List.find (path_is p) rows.
Proof.
  intros Hne. induction rows as [|r rest IH]; simpl; [reflexivity|].
  destruct (path_is path r) eqn:E; simpl.
  - unfold path_is in *. apply String.eqb_eq in E.
    destruct (String.eqb_spec (row_path r) p); [congruence|exact IH].
  - destruct (path_is p r); [reflexivity|exact IH].
Qed.

Lemma filter_nothing_removed path rows :
  List.filter (path_is path) rows = [] ->
  List.filter (fun r => negb (path_is path r)) rows = rows.
Proof.
  induction rows as [|r rest IH]; simpl; [reflexivity|].
  destruct (path_is path r); simpl; [discriminate|].
  intros H. now rewrite IH.
Qed.

Lemma filter_removed_empty path rows :
  List.filter (path_is path)
              (List.filter (fun r => negb (path_is path r)) rows) = [].
Proof.
  induction rows as [|r rest IH]; simpl; [reflexivity|].
  destruct (path_is path r) eqn:E; simpl; [exact IH|].
  now rewrite E.
Qed.

(** X8.  On an open database [delete_file_record] answers whether a
    record of the path was stored; afterwards the path has no record,
    the records of the other paths are as before and paths stay unique;
    deleting a path that has no record changes nothing. *)
Theorem X8_delete_file_record db t path :
  connection db = Some t ->
  exists t' existed,
    delete_file_record db path = Ok ({| connection := Some t' |}, existed)
    /\ (existed = true <-> exists r, r ∈ tbl_rows t /\ row_path r = path)
    /\ get_file_by_path {| connection := Some t' |} path = Ok None
    /\ (forall p, p <> path ->
                  get_file_by_path {| connection := Some t' |} p
                  = get_file_by_path db p)
    /\ (unique_paths (tbl_rows t) -> unique_paths (tbl_rows t'))
    /\ (existed = false -> t' = t)
    /\ delete_file_record {| connection := Some t' |} path
       = Ok ({| connection := Some t' |}, false).
Proof.
  intros Hconn. unfold delete_file_record at 1. rewrite Hconn.
  eexists. eexists. split; [reflexivity|].
  assert (Hex : (0 <? Z.of_nat (List.length (List.filter (path_is path) (tbl_rows t))))
                = true
                <-> exists r, r ∈ tbl_rows t /\ row_path r = path).
  { split.
    - intros H. destruct (List.filter (path_is path) (tbl_rows t)) as [|r l] eqn:E;
        [discriminate|].
      assert (Hin : List.In r (List.filter (path_is path) (tbl_rows t))).
      { rewrite E. now left. }
      apply List.filter_In in Hin as [Hin Hp].
      exists r. split; [now apply list_elem_of_In|].
      now apply String.eqb_eq in Hp.
    - intros (r & Hr & Hp).
      assert (Hin : List.In r (List.filter (path_is path) (tbl_rows t))).
      { apply List.filter_In. split; [now apply list_elem_of_In|].
        unfold path_is. now apply String.eqb_eq. }
      destruct (List.filter (path_is path) (tbl_rows t)); [destruct Hin|].
      reflexivity. }
  split; [exact Hex|].
  unfold get_file_by_path. rewrite Hconn. simpl.
  split; [now rewrite find_filter_removed|].
  split; [intros p Hne; now rewrite find_filter_other|].
  split; [apply filter_unique_paths|].
  split.
  - intros Hf. destruct t as [rows seq]. simpl in *. f_equal.
    apply filter_nothing_removed.
    destruct (List.filter (path_is path) rows); [reflexivity|discriminate].
  - unfold delete_file_record. simpl.
    pose proof (filter_removed_empty path (tbl_rows t)) as Hnone.
    rewrite Hnone. simpl. rewrite (filter_nothing_removed _ _ Hnone).
    reflexivity.
Qed.

Lemma X8_delete_file_record_witness :
  exists t',
    delete_file_record sample_db "/photos/b.jpg"
    = Ok ({| connection := Some t' |}, true)
    /\ get_file_by_path {| connection := Some t' |} "/photos/b.jpg" = Ok None
    /\ get_file_by_path {| connection := Some t' |} "/photos/a.jpg"
       = Ok (Some row_a).
Proof.
  destruct (X8_delete_file_record sample_db
              {| tbl_rows := sample_rows; tbl_seq := 5 |} "/photos/b.jpg"
              eq_refl)
    as (t' & existed & H1 & H2 & H3 & H4 & _).
  assert (He : existed = true).
  { apply H2. exists row_b. split; [|reflexivity].
    unfold sample_rows. apply list_elem_of_further, list_elem_of_here. }
  subst existed. exists t'. split; [exact H1|]. split; [exact H3|].
  rewrite (H4 "/photos/a.jpg"); [reflexivity|discriminate].
Defined.

Lemma fold_add_shift l a :
  List.fold_left Z.add l a = a + List.fold_left Z.add l 0.
Proof.
  revert a. induction l as [|x l IH]; intros a; cbn [List.fold_left]; [lia|].
  rewrite (IH (a + x)), (IH (0 + x)). lia.
Qed.

Lemma sql_sum_fold l a : List.fold_left Z.add l a = a + or_zero (sql_sum l).
Proof.
  rewrite fold_add_shift. destruct l; simpl; lia.
Qed.

Lemma sql_sum_cons x l :
  or_zero (sql_sum (x :: l)) = x + or_zero (sql_sum l).
Proof. simpl. rewrite sql_sum_fold. lia. Qed.

Lemma sql_min_spec l m :
  sql_min l = Some m -> m ∈ l /\ forall x, x ∈ l -> m <= x.
Proof.
  destruct l as [|x l]; simpl; [discriminate|]. intros [= <-].
  revert x. induction l as [|y l IH]; intros x; simpl.
  - split; [apply list_elem_of_here|].
    intros z Hz. apply list_elem_of_singleton in Hz. lia.
  - destruct (IH (Z.min x y)) as [Hin Hle]. split.
    + apply elem_of_cons in Hin as [Hin|Hin].
      * rewrite Hin. destruct (Z.min_spec x y) as [[_ ->]|[_ ->]];
          [apply list_elem_of_here
          |apply list_elem_of_further, list_elem_of_here].
      * now do 2 apply list_elem_of_further.
    + intros z Hz. apply elem_of_cons in Hz as [->|Hz].
      * specialize (Hle (Z.min x y) (list_elem_of_here _ _)). lia.
      * apply elem_of_cons in Hz as [->|Hz].
        -- specialize (Hle (Z.min x y) (list_elem_of_here _ _)). lia.
        -- apply Hle. now apply list_elem_of_further.
Qed.

Lemma type_flags_bound rows :
  0 <= or_zero (sql_sum (List.map (type_flag "image") rows))
  /\ 0 <= or_zero (sql_sum (List.map (type_flag "video") rows))
  /\ or_zero (sql_sum (List.map (type_flag "image") rows))
     + or_zero (sql_sum (List.map (type_flag "video") rows))
     <= Z.of_nat (List.length rows)
  /\ ((forall r, r ∈ rows ->
                 row_file_type r = "image" \/ row_file_type r = "video") ->
      or_zero (sql_sum (List.map (type_flag "image") rows))
      + or_zero (sql_sum (List.map (type_flag "video") rows))
      = Z.of_nat (List.length rows)).
Proof.
  induction rows as [|r rest (I1 & I2 & I3 & I4)].
  - simpl. repeat split; try lia.
  - cbn [List.map List.length]. rewrite !sql_sum_cons, Nat2Z.inj_succ.
    assert (Hr : (type_flag "image" r = 1 /\ type_flag "video" r = 0
                  /\ row_file_type r = "image")
                 \/ (type_flag "image" r = 0 /\ type_flag "video" r = 1
                     /\ row_file_type r = "video")
                 \/ (type_flag "image" r = 0 /\ type_flag "video" r = 0
                     /\ row_file_type r <> "image"
                     /\ row_file_type r <> "video")).
    { unfold type_flag.
      destruct (String.eqb_spec (row_file_type r) "image") as [E|E].
      - left. rewrite E. simpl. auto.
      - destruct (String.eqb_spec (row_file_type r) "video") as [E'|E'];
          [right; left|right; right]; auto. }
    repeat split; try (destruct Hr as [H|[H|H]]; lia).
    intros Hall.
    assert (Hrest : forall x, x ∈ rest ->
                      row_file_type x = "image" \/ row_file_type x = "video").
    { intros x Hx. apply Hall. now apply list_elem_of_further. }
    specialize (I4 Hrest).
    destruct (Hall r (list_elem_of_here _ _)) as [E|E];
      destruct Hr as [H|[H|H]]; try lia; destruct H as (_ & _ & H);
      try congruence; destruct H; congruence.
Qed.

(** X9.  On an open database [get_stats] counts all rows; the image and
    video counts are not negative and together at most the total, with
    equality when every row is an image or a video; the creation time of
    the cache is the least scan date of the rows, absent exactly for the
    empty table, on which every count and the size are zero. *)
Theorem X9_stats db t :
  connection db = Some t ->
  exists s,
    get_stats db = Ok s
    /\ total_files_cached s = Z.of_nat (List.length (tbl_rows t))
    /\ 0 <= total_images s
    /\ 0 <= total_videos s
    /\ total_images s + total_videos s <= total_files_cached s
    /\ ((forall r, r ∈ tbl_rows t ->
                   row_file_type r = "image" \/ row_file_type r = "video") ->
        total_images s + total_videos s = total_files_cached s)
    /\ (forall m, cache_created_at s = Some m ->
                  (exists r, r ∈ tbl_rows t /\ row_scan_date r = m)
                  /\ forall r, r ∈ tbl_rows t -> m <= row_scan_date r)
    /\ (cache_created_at s = None <-> tbl_rows t = [])
    /\ (tbl_rows t = [] ->
        total_files_cached s = 0 /\ total_images s = 0 /\ total_videos s = 0
        /\ (total_size_mb s == 0)%Q).
Proof.
  intros Hconn. unfold get_stats. rewrite Hconn.
  eexists. split; [reflexivity|]. simpl.
  destruct (type_flags_bound (tbl_rows t)) as (H1 & H2 & H3 & H4).
  split; [reflexivity|]. split; [exact H1|]. split; [exact H2|].
  split; [exact H3|]. split; [exact H4|]. split; [|split].
  - intros m Hm. apply sql_min_spec in Hm as [Hin Hle]. split.
    + apply list_elem_of_fmap in Hin as (r & -> & Hr). eauto.
    + intros r Hr. apply Hle. apply list_elem_of_fmap. eauto.
  - destruct (tbl_rows t); simpl; split; intros H;
      (reflexivity || discriminate).
  - intros ->. repeat split; reflexivity.
Qed.

Lemma X9_stats_witness :
  exists s,
    get_stats sample_db = Ok s
    /\ total_files_cached s = 5 /\ total_images s = 5 /\ total_videos s = 0
    /\ cache_created_at s = Some 2000.
Proof.
  destruct (X9_stats sample_db {| tbl_rows := sample_rows; tbl_seq := 5 |}
              eq_refl) as (s & H1 & _).
  exists s. split; [exact H1|].
  injection H1 as <-. repeat split; reflexivity.
Defined.

(** X10.  Clearing an open cache leaves no record: every lookup answers
    none, every duplicate query returns no pair, the statistics are
    zero, and after the endpoint [clear_cache] the endpoint
    [get_duplicates] reports no pair and zero savings for every valid
    threshold and scope. *)
Theorem X10_clear_then_query {lib : ImageHashLib} w t :
  connection (db w) = Some t ->
  exists d,
    clear_all (db w) = Ok d
    /\ api_clear_cache w = (Response "Cache cleared successfully", with_db w d)
    /\ (forall p, get_file_by_path d p = Ok None)
    /\ get_all_files d = Ok []
    /\ (forall thr scope, find_duplicates d thr scope = Ok [])
    /\ (exists s,
          get_stats d = Ok s
          /\ total_files_cached s = 0 /\ total_images s = 0
          /\ total_videos s = 0 /\ (total_size_mb s == 0)%Q
          /\ cache_created_at s = None)
    /\ (forall thr scope,
          0 <= thr <= 15 ->
          scope = "image" \/ scope = "video" \/ scope = "both" ->
          get_duplicates thr (Some scope) (with_db w d)
          = Response {| pairs := []; total_pairs := 0;
                        total_potential_savings_mb := 0%Q |}).
Proof.
  intros Hconn. unfold api_clear_cache, clear_all. rewrite Hconn.
  eexists. split; [reflexivity|]. split; [reflexivity|].
  split; [reflexivity|]. split; [reflexivity|].
  assert (Hfind : forall thr scope,
             find_duplicates
               {| connection := Some {| tbl_rows := []; tbl_seq := tbl_seq t |} |}
               thr scope = Ok []).
  { intros thr scope. unfold find_duplicates, get_files_with_hashes. simpl.
    destruct (String.eqb scope "both"); reflexivity. }
  split; [exact Hfind|].
  split; [eexists; split; [reflexivity|]; repeat split; reflexivity|].
  intros thr scope [Hlo Hhi] Hscope. unfold get_duplicates.
  destruct (Z.ltb_spec thr 0); [lia|].
  destruct (Z.ltb_spec 15 thr); [lia|]. cbn [orb]. cbv zeta.
  assert (Hin : str_in scope ["image"; "video"; "both"] = true).
  { destruct Hscope as [->|[->| ->]]; reflexivity. }
  rewrite Hin. cbn [negb with_db db]. rewrite Hfind. reflexivity.
Qed.

Lemma X10_clear_then_query_witness :
  exists d,
    clear_all sample_db = Ok d
    /\ find_duplicates (lib := imagehash) d 15 "both" = Ok [].
Proof.
  destruct (X10_clear_then_query (lib := imagehash) sample_world
              {| tbl_rows := sample_rows; tbl_seq := 5 |} eq_refl)
    as (d & H1 & _ & _ & _ & H5 & _).
  exists d. split; [exact H1|apply H5].
Defined.

(* ================================================================== *)
(** * Further properties of the scanner *)
(* ================================================================== *)

Lemma find_files_loop_prefix env allowed items files :
  find_files_loop env allowed items files
  = (files ++ List.filter (accepted env allowed)
                          (readable_prefix env allowed items))%list.
Proof.
  revert files. induction items as [|item rest IH]; intros files;
    cbn [find_files_loop readable_prefix].
  - cbn [List.filter]. now rewrite app_nil_r.
  - assert (Hacc : accepted env allowed item
                   = (is_file env item
                      && str_in (str_lower (path_suffix item)) allowed)
                     && match stat env item with
                        | Ok s => size_within_limit s
                        | Raise _ => false
                        end) by reflexivity.
    assert (Hun : unreadable env allowed item
                  = (is_file env item
                     && str_in (str_lower (path_suffix item)) allowed)
                    && match stat env item with
                       | Ok _ => false
                       | Raise _ => true
                       end) by reflexivity.
    rewrite Hun.
    destruct (is_file env item && str_in (str_lower (path_suffix item)) allowed).
    + destruct (stat env item) as [s|e]; cbn [andb] in *.
      * cbn [List.filter]. rewrite Hacc.
        destruct (size_within_limit s); rewrite IH; [|reflexivity].
        now rewrite <- app_assoc.
      * cbn [List.filter]. now rewrite app_nil_r.
    + cbn [andb] in *. cbn [List.filter]. rewrite Hacc. apply IH.
Qed.



Lemma readable_prefix_cut env allowed pre bad post :
  List.existsb (unreadable env allowed) pre = false ->
  unreadable env allowed bad = true ->
  readable_prefix env allowed (pre ++ bad :: post) = pre.
Proof.
  intros Hpre Hbad. induction pre as [|item rest IH]; simpl.
  - now rewrite Hbad.
  - simpl in Hpre. destruct (unreadable env allowed item); [discriminate|].
    now rewrite IH.
Qed.


Lemma find_files_elem_accepted env directory scope f :
  f ∈ find_files env directory scope ->
  is_file env f = true
  /\ str_in (str_lower (path_suffix f)) (allowed_for scope) = true
  /\ exists s, stat env f = Ok s /\ size_within_limit s = true.
Proof.
  unfold find_files. fold (allowed_for scope). cbv zeta.
  rewrite find_files_loop_prefix. simpl.
  intros Hf. apply list_elem_of_In, List.filter_In in Hf as [_ Hf].
  unfold accepted in Hf.
  apply andb_true_iff in Hf as [Hf Hs].
  apply andb_true_iff in Hf as [Hf He].
  split; [exact Hf|]. split; [exact He|].
  destruct (stat env f) as [s|e]; [eauto|discriminate].
Qed.



(** X12.  A candidate that cannot be stat'ed ends the walk: the files
    accepted before it are returned and everything after it is left
    out, with no error reported to the caller. *)
Theorem X12_find_files_cut env directory scope pre bad post :
  rglob env directory = (pre ++ bad :: post)%list ->
  List.existsb (unreadable env (allowed_for scope)) pre = false ->
  unreadable env (allowed_for scope) bad = true ->
  find_files env directory scope
  = List.filter (accepted env (allowed_for scope)) pre.
Proof.
  intros Hr Hpre Hbad.
  unfold find_files. fold (allowed_for scope). cbv zeta.
  rewrite find_files_loop_prefix, Hr, (readable_prefix_cut _ _ _ _ _ Hpre Hbad).
  reflexivity.
Qed.

Lemma X12_find_files_cut_witness :
  find_files broken_env "/photos" "both" = ["/photos/a.jpg"]
  /\ find_files sample_env "/photos" "both"
     = ["/photos/a.jpg"; "/photos/b.jpg"; "/photos/new.PNG"; "/photos/clip.mp4"].
Proof.
  split; [|reflexivity].
  apply (X12_find_files_cut broken_env "/photos" "both" ["/photos/a.jpg"]
           "/photos/b.jpg"
           ["/photos/new.PNG"; "/photos/clip.mp4"; "/photos/notes.txt"]);
    reflexivity.
Defined.

Lemma video_not_image ext :
  str_in ext VIDEO_EXTENSIONS = true -> str_in ext IMAGE_EXTENSIONS = false.
Proof.
  unfold str_in, VIDEO_EXTENSIONS. simpl. intros H.
  repeat (apply orb_true_iff in H as [H|H];
          [apply String.eqb_eq in H; subst ext; reflexivity|]).
  discriminate.
Qed.

(** X13.  The files found for the scope "image" are images for
    [get_file_type] and those found for "video" are videos; any other
    scope, known or not, is searched like "both". *)
Theorem X13_find_files_scope env directory scope f :
  f ∈ find_files env directory scope ->
  (scope = "image" -> get_file_type f = Some "image")
  /\ (scope = "video" -> get_file_type f = Some "video")
  /\ (scope <> "image" -> scope <> "video" ->
      find_files env directory scope = find_files env directory "both"
      /\ (get_file_type f = Some "image" \/ get_file_type f = Some "video")).
Proof.
  intros Hf.
  destruct (find_files_elem_accepted _ _ _ _ Hf) as (_ & Hext & _).
  unfold get_file_type. split; [|split].
  - intros ->. change (allowed_for "image") with IMAGE_EXTENSIONS in Hext.
    now rewrite Hext.
  - intros ->. change (allowed_for "video") with VIDEO_EXTENSIONS in Hext.
    now rewrite (video_not_image _ Hext), Hext.
  - intros H1 H2. unfold allowed_for in Hext.
    destruct (String.eqb_spec scope "image"); [contradiction|].
    destruct (String.eqb_spec scope "video"); [contradiction|].
    split.
    + unfold find_files.
      destruct (String.eqb_spec scope "image"); [contradiction|].
      destruct (String.eqb_spec scope "video"); [contradiction|].
      reflexivity.
    + unfold SUPPORTED_EXTENSIONS in Hext. rewrite str_in_app in Hext.
      destruct (str_in _ IMAGE_EXTENSIONS); [now left|].
      cbn [orb] in Hext. rewrite Hext. now right.
Qed.

Lemma X13_find_files_scope_witness :
  get_file_type "/photos/clip.mp4" = Some "video"
  /\ find_files sample_env "/photos" "audio"
     = find_files sample_env "/photos" "both".
Proof.
  assert (Hv : "/photos/clip.mp4" ∈ find_files sample_env "/photos" "video").
  { vm_compute. apply list_elem_of_here. }
  assert (Ha : "/photos/a.jpg" ∈ find_files sample_env "/photos" "audio").
  { vm_compute. apply list_elem_of_here. }
  split.
  - apply (X13_find_files_scope sample_env "/photos" "video" _ Hv). reflexivity.
  - apply (X13_find_files_scope sample_env "/photos" "audio" _ Ha);
      discriminate.
Defined.

Lemma process_files_cons env f rest w :
  process_files env (f :: rest) w
  = process_files env rest
      (after_file (snd (process_file env f (before_file w f)))).
Proof.
  cbn [process_files]. unfold bind at 1. unfold modify_status at 1.
  fold (before_file w f). unfold bind at 1.
  destruct (process_file_returns env f (before_file w f)) as [r Hr].
  destruct (process_file env f (before_file w f)) as [r' w2].
  simpl in Hr. subst r'. unfold bind at 1, modify_status at 1.
  reflexivity.
Qed.

Lemma process_files_returns env files w :
  fst (process_files env files w) = Ok tt.
Proof.
  revert w. induction files as [|f rest IH]; intros w; [reflexivity|].
  rewrite process_files_cons. apply IH.
Qed.


(** On a closed cache the file gets an error entry and nothing else
    happens. *)
Lemma process_file_closed env f w :
  processable env f ->
  connection (db w) = None ->
  process_file env f w = (Ok None, after_error w (file_error f no_connection)).
Proof.
  intros (s & ft & Hs & Hft) Hconn.
  pose proof (process_file_cases env f w) as Hc.
  rewrite Hs, Hft in Hc. cbv zeta in Hc.
  unfold get_file_by_path in Hc. rewrite Hconn in Hc. exact Hc.
Qed.




Lemma all_failed_fields e s files :
  is_scanning (all_failed e s files) = is_scanning s
  /\ total_files (all_failed e s files) = total_files s
  /\ processed_files (all_failed e s files)
     = processed_files s + Z.of_nat (List.length files)
  /\ errors (all_failed e s files)
     = (errors s ++ List.map (fun f => file_error f e) files)%list
  /\ start_time (all_failed e s files) = start_time s
  /\ end_time (all_failed e s files) = end_time s
  /\ scanned_path (all_failed e s files) = scanned_path s
  /\ scan_file_type (all_failed e s files) = scan_file_type s.
Proof.
  unfold all_failed. revert s.
  induction files as [|f rest IH]; intros s;
    cbn [List.fold_left List.length List.map].
  - rewrite app_nil_r. repeat split; try reflexivity. simpl. lia.
  - destruct (IH (progress_failed e s f)) as (H1 & H2 & H3 & H4 & H5 & H6 & H7 & H8).
    rewrite H1, H2, H3, H4, H5, H6, H7, H8. simpl.
    rewrite <- app_assoc. repeat split; try reflexivity. lia.
Qed.



(** The same on a closed cache: an error entry for every file. *)
Lemma process_files_closed env files w :
  (forall f, f ∈ files -> processable env f) ->
  connection (db w) = None ->
  snd (process_files env files w)
  = {| db := db w;
       scan_status := all_failed no_connection (scan_status w) files;
       clock := clock w;
       events := events w |}.
Proof.
  revert w. induction files as [|f rest IH]; intros w Hall Hconn.
  - destruct w; reflexivity.
  - rewrite process_files_cons.
    rewrite (process_file_closed env f (before_file w f)
               (Hall f (list_elem_of_here _ _)) Hconn).
    rewrite IH; [reflexivity| |exact Hconn].
    intros g Hg. apply Hall. now apply list_elem_of_further.
Qed.



Lemma find_files_processable env directory scope f :
  f ∈ find_files env directory scope -> processable env f.
Proof.
  intros H. destruct (find_files_candidate _ _ _ _ H) as (s & ft & Hs & Hft & _).
  exists s, ft. auto.
Qed.



(** An accepted scan that keeps the cache, as a computation. *)
Lemma scan_directory_keep env directory scope w :
  is_scanning (scan_status w) = false ->
  scan_directory env directory scope false w
  = (Ok (scan_status
           (scan_finished
              (snd (process_files env (find_files env directory scope)
                      (with_total (scan_started w directory scope)
                                  (find_files env directory scope)))))),
     scan_finished
       (snd (process_files env (find_files env directory scope)
               (with_total (scan_started w directory scope)
                           (find_files env directory scope))))).
Proof.
  intros Hidle.
  unfold scan_directory, bind, get_status. rewrite Hidle.
  unfold modify_status, now, try_catch, scan_try, bind.
  fold (scan_started w directory scope).
  unfold ret. cbv zeta. unfold modify_status.
  match goal with
  | |- context [process_files env ?l ?w1] =>
      change w1 with (with_total (scan_started w directory scope) l);
      pose proof (process_files_returns env l
                    (with_total (scan_started w directory scope) l)) as Hr;
      destruct (process_files env l
                  (with_total (scan_started w directory scope) l))
        as [r w3]
  end.
  simpl in Hr. subst r. reflexivity.
Qed.




(** X16.  An accepted scan on a closed cache: when it is asked to clear
    the cache it raises at once, with nothing enumerated or processed
    and the message as its only error entry; when it keeps the cache it
    returns normally, every file found being counted as processed and
    given the error entry of the closed cache.  Either way the flag is
    cleared. *)
Theorem X16_scan_closed env directory scope w :
  is_scanning (scan_status w) = false ->
  connection (db w) = None ->
  (exists w',
      scan_directory env directory scope true w = (Raise no_connection, w')
      /\ is_scanning (scan_status w') = false
      /\ errors (scan_status w') = [exn_str no_connection]
      /\ total_files (scan_status w') = 0
      /\ processed_files (scan_status w') = 0
      /\ db w' = db w)
  /\ (exists st w',
        scan_directory env directory scope false w = (Ok st, w')
        /\ st = scan_status w'
        /\ is_scanning st = false
        /\ errors st
           = List.map (fun f => file_error f no_connection)
                      (find_files env directory scope)
        /\ total_files st
           = Z.of_nat (List.length (find_files env directory scope))
        /\ processed_files st = total_files st
        /\ db w' = db w
        /\ events w' = events w).
Proof.
  intros Hidle Hconn. split.
  - unfold scan_directory, bind, get_status. rewrite Hidle.
    unfold modify_status, now, try_catch, scan_try, bind, db_clear_all, bind,
      emit, lift, clear_all.
    cbn [db]. rewrite Hconn. simpl.
    eexists. split; [reflexivity|]. simpl. repeat split; reflexivity.
  - rewrite (scan_directory_keep _ _ _ _ Hidle).
    eexists. eexists. split; [reflexivity|]. split; [reflexivity|].
    rewrite (process_files_closed env (find_files env directory scope)
               (with_total (scan_started w directory scope)
                           (find_files env directory scope))
               (find_files_processable env directory scope) Hconn).
    destruct (all_failed_fields no_connection
                (scan_status (with_total (scan_started w directory scope)
                                (find_files env directory scope)))
                (find_files env directory scope))
      as (A1 & A2 & A3 & A4 & A5 & A6 & A7 & A8).
    unfold scan_finished.
    cbn [scan_status db events is_scanning errors total_files processed_files
           set_is_scanning set_end_time].
    rewrite A2, A3, A4. simpl. repeat split; reflexivity.
Qed.

Lemma X16_scan_closed_witness :
  (exists w',
      scan_directory sample_env "/photos" "both" true closed_world
      = (Raise no_connection, w')
      /\ processed_files (scan_status w') = 0)
  /\ exists st w',
       scan_directory sample_env "/photos" "both" false closed_world
       = (Ok st, w')
       /\ List.length (errors st) = 4%nat.
Proof.
  destruct (X16_scan_closed sample_env "/photos" "both" closed_world
              eq_refl eq_refl)
    as [(w1 & H1 & _ & _ & _ & H5 & _) (st & w2 & H2 & _ & _ & He & _)].
  split.
  - exists w1. split; [exact H1|exact H5].
  - exists st, w2. split; [exact H2|]. rewrite He. reflexivity.
Defined.








(* ================================================================== *)
(** * Properties of the endpoints *)
(* ================================================================== *)

Lemma delete_file_record_facts db t path :
  connection db = Some t ->
  exists t' existed,
    delete_file_record db path = Ok ({| connection := Some t' |}, existed)
    /\ get_file_by_path {| connection := Some t' |} path = Ok None
    /\ (forall p, p <> path ->
                  get_file_by_path {| connection := Some t' |} p
                  = get_file_by_path db p).
Proof.
  intros Hconn. unfold delete_file_record. rewrite Hconn.
  eexists. eexists. split; [reflexivity|].
  unfold get_file_by_path. rewrite Hconn. simpl.
  split; [now rewrite find_filter_removed|].
  intros p Hne. now rewrite find_filter_other.
Qed.

(** X19.  [start_scan] never queues a scan and never answers with a
    status: it leaves the world as it is and ends with 409, 404 or 400,
    or, for a request that passes these tests, with the
    [AttributeError] of [request.clear_cache]. *)
Theorem X19_start_scan_never_queues env request w :
  snd (fst (start_scan env request w)) = []
  /\ snd (start_scan env request w) = w
  /\ (forall r, fst (fst (start_scan env request w)) <> Response r)
  /\ (is_scanning (scan_status w) = false ->
      path_exists env (req_path request) = true ->
      is_dir env (req_path request) = true ->
      fst (fst (start_scan env request w))
      = Unhandled (Exn "AttributeError"
                       "'ScanRequest' object has no attribute 'clear_cache'")).
Proof.
  unfold start_scan, req_clear_cache.
  destruct (is_scanning (scan_status w));
    [repeat split; try discriminate; intros; discriminate|].
  destruct (path_exists env (req_path request)); simpl;
    [|repeat split; try discriminate; intros; discriminate].
  destruct (is_dir env (req_path request)); simpl;
    repeat split; try discriminate; intros; discriminate.
Qed.

Lemma X19_start_scan_never_queues_witness :
  start_scan sample_env sample_request sample_world
  = (Unhandled (Exn "AttributeError"
                    "'ScanRequest' object has no attribute 'clear_cache'"),
     [], sample_world).
Proof.
  destruct (X19_start_scan_never_queues sample_env sample_request sample_world)
    as (H1 & H2 & _ & H4).
  specialize (H4 eq_refl eq_refl eq_refl).
  destruct (start_scan sample_env sample_request sample_world) as [[o q] w'].
  simpl in *. now subst.
Defined.

(** X20.  [get_duplicates] tests the threshold first, then the scope,
    the scope of the last scan standing in for a missing one: a
    threshold outside 0..15 gives 400 whatever else holds, an unknown
    scope gives 400, a closed cache gives 500 with the message of the
    exception; otherwise the response lists the pairs of
    [find_duplicates], sorted by score, each within the threshold, and
    their number. *)
Theorem X20_get_duplicates {lib : ImageHashLib} threshold file_type w :
  (threshold < 0 \/ 15 < threshold ->
   get_duplicates threshold file_type w
   = HTTPError 400 "Threshold must be between 0 and 15")
  /\ (0 <= threshold <= 15 ->
      str_in (effective_scope file_type w) ["image"; "video"; "both"] = false ->
      get_duplicates threshold file_type w
      = HTTPError 400 "file_type must be 'image', 'video', or 'both'")
  /\ (0 <= threshold <= 15 ->
      str_in (effective_scope file_type w) ["image"; "video"; "both"] = true ->
      (connection (db w) = None ->
       get_duplicates threshold file_type w
       = HTTPError 500 ("Error finding duplicates: "
                        ++ exn_str no_connection)%string)
      /\ (forall t, connection (db w) = Some t ->
            exists r,
              get_duplicates threshold file_type w = Response r
              /\ find_duplicates (db w) threshold (effective_scope file_type w)
                 = Ok (pairs r)
              /\ total_pairs r = Z.of_nat (List.length (pairs r))
              /\ StronglySorted score_le (pairs r)
              /\ forall p, p ∈ pairs r -> similarity_score p <= threshold)).
Proof.
  unfold get_duplicates. fold (effective_scope file_type w). cbv zeta.
  split; [|split].
  - intros [H|H].
    + destruct (Z.ltb_spec threshold 0); [reflexivity|lia].
    + destruct (Z.ltb_spec 15 threshold); [|lia].
      now rewrite orb_true_r.
  - intros [Hlo Hhi] Hs.
    destruct (Z.ltb_spec threshold 0); [lia|].
    destruct (Z.ltb_spec 15 threshold); [lia|].
    cbn [orb]. now rewrite Hs.
  - intros [Hlo Hhi] Hs.
    destruct (Z.ltb_spec threshold 0); [lia|].
    destruct (Z.ltb_spec 15 threshold); [lia|].
    cbn [orb]. rewrite Hs. cbn [negb]. split.
    + intros Hc. unfold find_duplicates, get_files_with_hashes.
      now rewrite Hc.
    + intros t Hc.
      destruct (find_duplicates_open (db w) t threshold
                  (effective_scope file_type w) Hc) as (files & _ & ->).
      eexists. split; [reflexivity|]. cbn [pairs total_pairs].
      split; [reflexivity|]. split; [reflexivity|].
      split; [apply sort_by_score_sorted|].
      intros p Hp. apply find_duplicates_in_rows in Hp
        as (f1 & f2 & _ & _ & _ & _ & Hd & ->). exact Hd.
Qed.

Lemma X20_get_duplicates_witness :
  get_duplicates (lib := imagehash) 16 None closed_world
  = HTTPError 400 "Threshold must be between 0 and 15"
  /\ get_duplicates (lib := imagehash) 5 (Some "audio") sample_world
     = HTTPError 400 "file_type must be 'image', 'video', or 'both'"
  /\ get_duplicates (lib := imagehash) 5 None closed_world
     = HTTPError 500 ("Error finding duplicates: "
                      ++ exn_str no_connection)%string.
Proof.
  split; [|split].
  - apply (X20_get_duplicates (lib := imagehash) 16 None closed_world). lia.
  - apply (X20_get_duplicates (lib := imagehash) 5 (Some "audio") sample_world);
      [lia|reflexivity].
  - apply (X20_get_duplicates (lib := imagehash) 5 None closed_world);
      [lia|reflexivity|reflexivity].
Defined.

(** X21.  [delete_file] unlinks nothing and changes nothing when it
    answers 403 (the file is not under the scanned directory), 404 or
    400.  When it answers with success the file was under the scanned
    directory and was unlinked, its record is gone from the cache and
    the records of the other paths and the scan status are as before.
    When the cache is closed the file is unlinked all the same and the
    answer is 500. *)
Theorem X21_delete_file env unlink request w :
  (is_path_safe env (del_scan_base_path request) (del_file_path request)
   = false ->
   delete_file env unlink request w
   = (HTTPError 403 "Cannot delete file outside of scanned directory", [], w))
  /\ (forall code detail,
        fst (fst (delete_file env unlink request w)) = HTTPError code detail ->
        code <> 500 ->
        snd (fst (delete_file env unlink request w)) = []
        /\ snd (delete_file env unlink request w) = w)
  /\ (forall r,
        fst (fst (delete_file env unlink request w)) = Response r ->
        is_path_safe env (del_scan_base_path request) (del_file_path request)
        = true
        /\ is_file env (del_file_path request) = true
        /\ snd (fst (delete_file env unlink request w))
           = [del_file_path request]
        /\ deleted_path r = Some (del_file_path request)
        /\ get_file_by_path (db (snd (delete_file env unlink request w)))
                            (del_file_path request) = Ok None
        /\ (forall p, p <> del_file_path request ->
              get_file_by_path (db (snd (delete_file env unlink request w))) p
              = get_file_by_path (db w) p)
        /\ scan_status (snd (delete_file env unlink request w))
           = scan_status w)
  /\ (is_path_safe env (del_scan_base_path request) (del_file_path request)
      = true ->
      path_exists env (del_file_path request) = true ->
      is_file env (del_file_path request) = true ->
      unlink (del_file_path request) = Ok tt ->
      connection (db w) = None ->
      delete_file env unlink request w
      = (HTTPError 500 ("Error deleting file: " ++ exn_str no_connection)%string,
         [del_file_path request], w)).
Proof.
  unfold delete_file. cbv zeta.
  destruct (is_path_safe env _ _) eqn:Esafe; cbn [negb].
  2:{ split; [reflexivity|].
      split; [intros code detail _ _; split; reflexivity|].
      split; [intros r H; discriminate|]. intros H. discriminate. }
  split; [intros H; discriminate|].
  destruct (path_exists env (del_file_path request)) eqn:Eex; cbn [negb].
  2:{ split; [intros code detail _ _; split; reflexivity|].
      split; [intros r H; discriminate|]. intros _ H. discriminate. }
  destruct (is_file env (del_file_path request)) eqn:Efile; cbn [negb].
  2:{ split; [intros code detail _ _; split; reflexivity|].
      split; [intros r H; discriminate|]. intros _ _ H. discriminate. }
  destruct (unlink (del_file_path request)) as [u|e] eqn:Eun.
  2:{ split; [intros code detail H Hne; simpl in H; congruence|].
      split; [intros r H; discriminate|]. intros _ _ _ H. discriminate. }
  destruct (connection (db w)) as [t|] eqn:Ec.
  - destruct (delete_file_record_facts (db w) t (del_file_path request) Ec)
      as (t' & existed & Hd & Hnone & Hother).
    rewrite Hd. cbn [fst snd with_db db scan_status].
    split; [intros code detail H; discriminate|].
    split; [|intros _ _ _ _ H; discriminate].
    intros r [= <-]. repeat split; try reflexivity; assumption.
  - unfold delete_file_record. rewrite Ec. cbn [fst snd].
    split; [intros code detail H Hne; simpl in H; congruence|].
    split; [intros r H; discriminate|]. reflexivity.
Qed.

Lemma X21_delete_file_witness :
  delete_file disk_env unlink_ok outside_delete sample_world
  = (HTTPError 403 "Cannot delete file outside of scanned directory", [],
     sample_world)
  /\ delete_file disk_env unlink_ok sample_delete closed_world
     = (HTTPError 500 ("Error deleting file: " ++ exn_str no_connection)%string,
        ["/photos/b.jpg"], closed_world).
Proof.
  split.
  - apply (X21_delete_file disk_env unlink_ok outside_delete sample_world).
    reflexivity.
  - apply (X21_delete_file disk_env unlink_ok sample_delete closed_world);
      reflexivity.
Defined.

(** X22.  [get_file_preview] serves every existing regular file, whether
    or not the cache knows it, and then changes nothing.  For a path
    that is not on disk it answers 404 and, when a record was found
    under the resolved or the given path, deletes the record of the
    resolved path.  On a closed cache it answers 500.  In every case the
    scan status and the records of all paths but the resolved one are
    as before. *)
Theorem X22_file_preview env file_path w :
  (forall t,
      connection (db w) = Some t ->
      path_exists env (resolve env file_path) = true ->
      is_file env (resolve env file_path) = true ->
      get_file_preview env file_path w
      = (Response
           {| resp_path := resolve env file_path;
              resp_media_type :=
                media_type_of (str_lower (path_suffix (resolve env file_path)));
              resp_filename := path_name (resolve env file_path) |},
         w))
  /\ (forall t,
        connection (db w) = Some t ->
        path_exists env (resolve env file_path) = false ->
        fst (get_file_preview env file_path w)
        = HTTPError 404 (preview_not_found (resolve env file_path))
        /\ ((exists c, get_file_by_path (db w) (resolve env file_path)
                       = Ok (Some c)) ->
            get_file_by_path (db (snd (get_file_preview env file_path w)))
                             (resolve env file_path) = Ok None)
        /\ (get_file_by_path (db w) (resolve env file_path) = Ok None ->
            get_file_by_path (db w) file_path = Ok None ->
            snd (get_file_preview env file_path w) = w))
  /\ (connection (db w) = None ->
      get_file_preview env file_path w = (preview_error no_connection, w))
  /\ scan_status (snd (get_file_preview env file_path w)) = scan_status w
  /\ (forall p, p <> resolve env file_path ->
        get_file_by_path (db (snd (get_file_preview env file_path w))) p
        = get_file_by_path (db w) p).
Proof.
  unfold get_file_preview. cbv zeta.
  destruct (connection (db w)) as [t|] eqn:Ec.
  2:{ assert (Hraise : get_file_by_path (db w) (resolve env file_path)
                       = Raise no_connection).
      { unfold get_file_by_path. now rewrite Ec. }
      rewrite Hraise.
      split; [intros t H; discriminate|].
      split; [intros t H; discriminate|].
      split; [reflexivity|]. split; reflexivity. }
  assert (Hget : forall p, get_file_by_path (db w) p
                           = Ok (List.find (path_is p) (tbl_rows t))).
  { intros p. unfold get_file_by_path. now rewrite Ec. }
  destruct (delete_file_record_facts (db w) t (resolve env file_path) Ec)
    as (t' & existed & Hd & Hnone & Hother).
  rewrite (Hget (resolve env file_path)), (Hget file_path), Hd.
  set (found := List.find (path_is (resolve env file_path)) (tbl_rows t)).
  set (raw := List.find (path_is file_path) (tbl_rows t)).
  assert (Hrec : exists file_record,
             match found with
             | Some r => Ok (Some r)
             | None => Ok raw
             end = Ok file_record
             /\ (forall c, found = Some c -> file_record = Some c)
             /\ (found = None -> raw = None -> file_record = None)).
  { destruct found as [c|]; eexists; (split; [reflexivity|]);
      split; congruence. }
  destruct Hrec as (file_record & -> & Hsome & Hnone').
  destruct (path_exists env (resolve env file_path)) eqn:Eex; cbn [negb].
  - destruct (is_file env (resolve env file_path)) eqn:Efile; cbn [negb].
    + split; [reflexivity|]. split; [intros t1 _ H; discriminate|].
      split; [intros H; discriminate|]. split; reflexivity.
    + split; [intros t1 _ _ H; discriminate|].
      split; [intros t1 _ H; discriminate|].
      split; [intros H; discriminate|]. split; reflexivity.
  - split; [intros t1 _ H; discriminate|].
    split.
    + intros t1 _ _. destruct file_record as [c|]; cbn [fst snd with_db db].
      * split; [reflexivity|]. split; [intros _; exact Hnone|].
        intros H1 H2. specialize (Hnone' ltac:(congruence) ltac:(congruence)).
        discriminate.
      * split; [reflexivity|]. split; [|reflexivity].
        intros (c & Hc). specialize (Hsome c ltac:(congruence)). discriminate.
    + split; [intros H; discriminate|].
      destruct file_record as [c|]; cbn [fst snd with_db db scan_status].
      * split; [reflexivity|]. intros p Hne. now rewrite (Hother p Hne).
      * split; [reflexivity|]. reflexivity.
Qed.

Lemma X22_file_preview_witness :
  get_file_preview disk_env "/photos/unscanned.gif" sample_world
  = (Response {| resp_path := "/photos/unscanned.gif";
                 resp_media_type := "image/gif";
                 resp_filename := "unscanned.gif" |},
     sample_world).
Proof.
  apply (proj1 (X22_file_preview disk_env "/photos/unscanned.gif" sample_world)
           {| tbl_rows := sample_rows; tbl_seq := 5 |}); reflexivity.
Defined.

Lemma str_in_cases ext l :
  str_in ext l = true -> List.In ext l.
Proof.
  unfold str_in. intros H. apply List.existsb_exists in H as (x & Hx & He).
  apply String.eqb_eq in He. now subst.
Qed.

(** X23.  For a file the scanner takes as an image the preview declares
    an image media type, except for [.tiff] and [.tif], which it serves
    as [application/octet-stream]; for a video it declares a video media
    type, except for [.mkv], [.flv] and [.wmv]. *)
Theorem X23_preview_media_types path ft :
  get_file_type path = Some ft ->
  (ft = "image" ->
   (media_type_of (str_lower (path_suffix path)) = "application/octet-stream"
    <-> str_in (str_lower (path_suffix path)) [".tiff"; ".tif"] = true)
   /\ (str_in (str_lower (path_suffix path)) [".tiff"; ".tif"] = false ->
       List.In (media_type_of (str_lower (path_suffix path)))
               ["image/jpeg"; "image/png"; "image/gif"; "image/webp";
                "image/bmp"]))
  /\ (ft = "video" ->
      (media_type_of (str_lower (path_suffix path)) = "application/octet-stream"
       <-> str_in (str_lower (path_suffix path)) [".mkv"; ".flv"; ".wmv"] = true)
      /\ (str_in (str_lower (path_suffix path)) [".mkv"; ".flv"; ".wmv"] = false ->
          List.In (media_type_of (str_lower (path_suffix path)))
                  ["video/mp4"; "video/webm"; "video/quicktime";
                   "video/x-msvideo"])).
Proof.
  unfold get_file_type.
  generalize (str_lower (path_suffix path)). intros ext.
  destruct (str_in ext IMAGE_EXTENSIONS) eqn:Ei.
  - intros [= <-]. split; [|intros H; discriminate]. intros _.
    apply str_in_cases in Ei. unfold IMAGE_EXTENSIONS in Ei. simpl in Ei.
    repeat (destruct Ei as [<-|Ei];
            [vm_compute; split; [split; intros H; (reflexivity || discriminate)
                                |intros H; (discriminate || tauto)]|]).
    destruct Ei.
  - destruct (str_in ext VIDEO_EXTENSIONS) eqn:Ev; [|discriminate].
    intros [= <-]. split; [intros H; discriminate|]. intros _.
    apply str_in_cases in Ev. unfold VIDEO_EXTENSIONS in Ev. simpl in Ev.
    repeat (destruct Ev as [<-|Ev];
            [vm_compute; split; [split; intros H; (reflexivity || discriminate)
                                |intros H; (discriminate || tauto)]|]).
    destruct Ev.
Qed.

Lemma X23_preview_media_types_witness :
  media_type_of (str_lower (path_suffix "/scans/page.TIFF"))
  = "application/octet-stream".
Proof.
  apply (proj1 (X23_preview_media_types "/scans/page.TIFF" "image" eq_refl)
           eq_refl).
  reflexivity.
Defined.

Lemma path_parts_from_app s1 s2 cur :
  path_parts_from (s1 ++ String "/" s2) cur
  = (path_parts_from s1 cur ++ path_parts_from s2 "")%list.
Proof.
  revert cur. induction s1 as [|c s1 IH]; intros cur.
  - change ("" ++ String "/" s2)%string with (String "/" s2).
    cbn [path_parts_from]. change (Ascii.eqb "/" "/") with true.
    cbv iota. now destruct (String.eqb cur "").
  - change (String c s1 ++ String "/" s2)%string
      with (String c (s1 ++ String "/" s2)%string).
    cbn [path_parts_from].
    destruct (Ascii.eqb c "/").
    + destruct (String.eqb cur ""); rewrite IH; reflexivity.
    + apply IH.
Qed.

Lemma parts_prefix_app base rest : parts_prefix base (base ++ rest) = true.
Proof.
  induction base as [|b base IH]; cbn [parts_prefix app]; [reflexivity|].
  now rewrite String.eqb_refl, IH.
Qed.

Lemma parts_prefix_trans a b c :
  parts_prefix a b = true -> parts_prefix b c = true -> parts_prefix a c = true.
Proof.
  revert b c. induction a as [|x a IH]; intros b c; [reflexivity|].
  destruct b as [|y b]; [discriminate|].
  destruct c as [|z c]; [discriminate|].
  cbn [parts_prefix]. rewrite !andb_true_iff.
  intros [Hxy Hab] [Hyz Hbc].
  apply String.eqb_eq in Hxy, Hyz. subst.
  rewrite String.eqb_refl. eauto.
Qed.

(** X24.  The test of [delete_file] is made against the base path sent
    with the request and ignores the scan status: a request whose base
    path is the file itself, or resolves to the root, or to an ancestor
    of the resolved file, is never refused with 403, and the answer is
    the same whatever directory was scanned.  Being within a base is
    transitive. *)
Theorem X24_delete_base_from_request env unlink request w :
  (del_scan_base_path request = del_file_path request ->
   is_path_safe env (del_scan_base_path request) (del_file_path request) = true)
  /\ (path_parts (resolve env (del_scan_base_path request)) = [] ->
      is_path_safe env (del_scan_base_path request) (del_file_path request)
      = true)
  /\ (forall rel,
        resolve env (del_file_path request)
        = (resolve env (del_scan_base_path request) ++ "/" ++ rel)%string ->
        is_path_safe env (del_scan_base_path request) (del_file_path request)
        = true)
  /\ (forall a b c,
        is_path_safe env a b = true -> is_path_safe env b c = true ->
        is_path_safe env a c = true)
  /\ (is_path_safe env (del_scan_base_path request) (del_file_path request)
      = true ->
      forall code detail,
        fst (fst (delete_file env unlink request w)) = HTTPError code detail ->
        code <> 403)
  /\ (forall s,
        fst (delete_file env unlink request (with_status w s))
        = fst (delete_file env unlink request w)).
Proof.
  unfold is_path_safe, is_relative_to.
  split; [|split; [|split; [|split; [|split]]]].
  - intros ->. rewrite <- (app_nil_r (path_parts _)) at 2.
    apply parts_prefix_app.
  - intros ->. reflexivity.
  - intros rel ->. unfold path_parts.
    change ("/" ++ rel)%string with (String "/" rel).
    rewrite path_parts_from_app. apply parts_prefix_app.
  - intros a b c. apply parts_prefix_trans.
  - intros Hsafe code detail. unfold delete_file, is_path_safe, is_relative_to.
    rewrite Hsafe. cbn [negb].
    destruct (negb (path_exists env (del_file_path request)));
      [intros [= <- _]; discriminate|].
    destruct (negb (is_file env (del_file_path request)));
      [intros [= <- _]; discriminate|].
    destruct (unlink (del_file_path request));
      [|intros [= <- _]; discriminate].
    destruct (delete_file_record (db w) (del_file_path request)) as [[d b]|e];
      [discriminate|intros [= <- _]; discriminate].
  - intros s. unfold delete_file. cbn [with_status db].
    destruct (negb _); [reflexivity|].
    destruct (negb _); [reflexivity|].
    destruct (negb _); [reflexivity|].
    destruct (unlink _); [|reflexivity].
    destruct (delete_file_record _ _) as [[d b]|e]; reflexivity.
Qed.

Lemma X24_delete_base_from_request_witness :
  is_path_safe disk_env "/photos" "/photos/b.jpg" = true
  /\ is_path_safe disk_env "/photos" "/photos2/b.jpg" = false.
Proof.
  split; [|reflexivity].
  apply (X24_delete_base_from_request disk_env unlink_ok sample_delete
           sample_world) with (rel := "b.jpg").
  reflexivity.
Defined.
